(** * Verification of the validation run pipeline (validations_libs.validation_actions)

    A shallow embedding of [ValidationActions] from
    [validations_libs/validation_actions.py]: the skip resolver
    ([_skip_hosts], [_skip_playbook]), the selector and orchestrator
    ([run_validations]) and the status query ([get_status]).

    Python strings are modelled as [string], dictionaries keyed by strings
    as [gmap string _], [None]-able values as [option], raised exceptions
    as the left summand of a sum, and the external collaborators (the
    engine, the artifact directory allocator, the log store) as functions
    on an explicit world state whose calls are recorded in a trace. *)

From Stdlib Require Import ZArith Ascii String List Lia.
From stdpp Require Import base option list strings gmap pretty.

Local Open Scope string_scope.
Local Open Scope list_scope.

(** ** Python string primitives *)

Module PyStr.

(** [sep.join(xs)] *)
Fixpoint join (sep : string) (xs : list string) : string :=
  match xs with
  | [] => ""
  | [x] => x
  | x :: rest => x +:+ sep +:+ join sep rest
  end.

(** [s.split(c)] for a one-character separator [c]: never returns the
    empty list; [''.split(',')] is [['']]. *)
Fixpoint split (c : ascii) (s : string) : list string :=
  match s with
  | EmptyString => [""]
  | String a s' =>
      if Ascii.eqb a c then "" :: split c s'
      else match split c s' with
           | [] => [String a ""]
           | t :: ts => String a t :: ts
           end
  end.

(** [t.startswith(h)] *)
Fixpoint startswith (h t : string) : bool :=
  match h, t with
  | EmptyString, _ => true
  | String a h', String b t' => Ascii.eqb a b && startswith h' t'
  | String _ _, EmptyString => false
  end.

(** [h in t] on strings: [h] occurs in [t] as a contiguous substring. *)
Fixpoint contains (h t : string) : bool :=
  startswith h t ||
  match t with
  | EmptyString => false
  | String _ t' => contains h t'
  end.

(** [c in s] for a character. *)
Fixpoint has_char (c : ascii) (s : string) : bool :=
  match s with
  | EmptyString => false
  | String a s' => Ascii.eqb a c || has_char c s'
  end.

(** [s.rfind(c)]: index of the last occurrence, [-1] when there is none. *)
Fixpoint rfind_from (c : ascii) (s : string) (i acc : Z) : Z :=
  match s with
  | EmptyString => acc
  | String a s' => rfind_from c s' (i + 1) (if Ascii.eqb a c then i else acc)
  end.

Definition rfind (c : ascii) (s : string) : Z := rfind_from c s 0 (-1).

(** [s[i:]] and [s[:i]] for [0 <= i]. *)
Fixpoint drop (n : nat) (s : string) : string :=
  match n, s with
  | O, _ => s
  | S n', String _ s' => drop n' s'
  | S _, EmptyString => ""
  end.

Fixpoint take (n : nat) (s : string) : string :=
  match n, s with
  | O, _ => ""
  | S n', String a s' => String a (take n' s')
  | S _, EmptyString => ""
  end.

Definition slice_from (i : Z) (s : string) : string := drop (Z.to_nat i) s.
Definition slice_to (i : Z) (s : string) : string := take (Z.to_nat i) s.

(** [s[i:i+1]] *)
Definition char_at (i : Z) (s : string) : string :=
  take 1 (drop (Z.to_nat i) s).

(** Truth value of a string and of an optional string ([None] and [''] are
    false). *)
Definition truthy (s : string) : bool :=
  match s with EmptyString => false | _ => true end.

Definition otruthy (o : option string) : bool :=
  match o with None => false | Some s => truthy s end.

(** Truth value of an optional list ([None] and [[]] are false). *)
Definition ltruthy {A} (o : option (list A)) : bool :=
  match o with None | Some [] => false | Some (_ :: _) => true end.

End PyStr.

(** ** os.path *)

Module OsPath.
Import PyStr.

(** [os.path.basename(p)]: [i = p.rfind('/') + 1; return p[i:]]. *)
Definition basename (p : string) : string :=
  let i := (rfind "/" p + 1)%Z in
  slice_from i p.

(** The loop of [genericpath._splitext] that skips leading dots: scans
    [filenameIndex, dotIndex) and answers whether some character is not a
    dot. [n] counts the remaining positions. *)
Fixpoint has_non_dot (p : string) (filenameIndex : Z) (n : nat) : bool :=
  match n with
  | O => false
  | S n' =>
      if negb (String.eqb (char_at filenameIndex p) ".") then true
      else has_non_dot p (filenameIndex + 1) n'
  end.

(** [os.path.splitext(p)] (posix). *)
Definition splitext (p : string) : string * string :=
  let sepIndex := rfind "/" p in
  let dotIndex := rfind "." p in
  if (sepIndex <? dotIndex)%Z then
    let filenameIndex := (sepIndex + 1)%Z in
    if has_non_dot p filenameIndex (Z.to_nat (dotIndex - filenameIndex))
    then (slice_to dotIndex p, slice_from dotIndex p)
    else (p, "")
  else (p, "").

End OsPath.

(** A string made of dots only. *)
Fixpoint all_dots (s : string) : bool :=
  match s with
  | EmptyString => true
  | String a s' => Ascii.eqb a "." && all_dots s'
  end.

(** ** Exceptions *)

Inductive Exn :=
| RuntimeError (msg : string)
| KeyError (key : string).

(** ** The skip resolver *)

(** A skip rule, the value stored in [skip_list] under a validation name.
    [hosts] is [None] when the key is absent or holds [None]. *)
Record SkipRule := mkSkipRule {
  hosts : option string;
  reason : option string;
  lp : option string
}.

(** ** The keyword arguments of [Ansible.run] *)

Module Ansible.

Record run_args := mk_run_args {
  workdir : string;
  playbook : string;
  base_dir : string;
  playbook_dir : string;
  parallel_run : bool;
  inventory : string;
  output_callback : string;
  quiet : bool;
  extra_vars : option string;
  limit_hosts : option string;
  extra_env_variables : option string;
  ansible_cfg : option string;
  gathering_policy : string;
  ansible_artifact_path : string;
  log_path : option string;
  run_async : bool;
  python_interpreter : option string
}.

End Ansible.

(** One entry of [results] in [run_validations]. *)
Record RunRecord := mkRunRecord {
  playbook : string;
  rc_code : Z;
  status : string;
  validations : string;
  UUID : string
}.

(** The metadata of a validation as returned by
    [parse_all_validations_on_disk]. *)
Record ValidationData := mkValidationData {
  id : string;
  name : string;
  groups : list string
}.

(** ** State and exceptions *)

Section Monad.

Context {St : Type}.

(** A computation reads and updates the state and either raises or
    returns; the state reached when an exception is raised is kept. *)
Definition M (A : Type) : Type := St → (Exn + A) * St.

Definition ret {A} (a : A) : M A := λ st, (inr a, st).

Definition raise {A} (e : Exn) : M A := λ st, (inl e, st).

Definition bind {A B} (m : M A) (k : A → M B) : M B :=
  λ st, match m st with
        | (inl e, st') => (inl e, st')
        | (inr a, st') => k a st'
        end.

End Monad.

Arguments M : clear implicits.

#[global] Instance M_ret {St} : MRet (M St) := λ A, ret.
#[global] Instance M_bind {St} : MBind (M St) := λ A B k m, bind m k.

Module ValidationActions.
Import PyStr OsPath.

(** [_skip_hosts(skip_list, playbook, limit_hosts)]. [skip_list[playbook]]
    raises [KeyError] when the key is missing. The value [None] means that
    the validation is skipped on all hosts. *)
Definition _skip_hosts (skip_list : gmap string SkipRule) (playbook : string)
    (limit_hosts : option string) : Exn + option string :=
  match skip_list !! playbook with
  | None => inl (KeyError playbook)
  | Some rule =>
      match hosts rule with
      | None => inr None
      | Some hosts =>
          if String.eqb hosts "ALL" then inr None
          else
            let _hosts := ["!" +:+ hosts] in
            let _hosts :=
              if otruthy limit_hosts then
                _hosts ++ List.filter (λ limit, negb (contains hosts limit))
                                      (split "," (default "" limit_hosts))
              else _hosts in
            inr (Some (join "," _hosts))
      end
  end.

(** Truth value of the [skip_list] argument: [None] and [{}] are false. *)
Definition dtruthy (skip_list : option (gmap string SkipRule)) : bool :=
  match skip_list with
  | None => false
  | Some m => bool_decide (m ≠ ∅)
  end.

(** [_skip_playbook(skip_list, playbook, limit_hosts)]: the pair of the
    playbook to run ([None] when it is skipped) and the host limit. *)
Definition _skip_playbook (skip_list : option (gmap string SkipRule))
    (playbook : string) (limit_hosts : option string)
  : Exn + (option string * option string) :=
  if dtruthy skip_list &&
     bool_decide (playbook ∈ dom (default ∅ skip_list)) then
    match _skip_hosts (default ∅ skip_list) playbook limit_hosts with
    | inl e => inl e
    | inr _hosts =>
        if otruthy _hosts then inr (Some playbook, _hosts)
        else inr (None, _hosts)
    end
  else inr (Some playbook, limit_hosts).

(** *** External collaborators of [run_validations]

    [validations_libs.utils], [validations_libs.ansible] and
    [validations_libs.validation_logs] are used through these calls only.
    Reading the definitions from disk is a function of the directory; the
    calls that create a workspace, run the engine and read the logs act on
    the world. *)
Class Collaborators := {
  World : Type;
  ResultRow : Type;
  parse_all_validations_on_disk :
    string → list string → Exn + list ValidationData;
  get_validations_playbook :
    string → list string → option (list string) → list string;
  create_artifacts_dir :
    option string → string → World → (string * string) * World;
  ansible_run :
    string → Ansible.run_args → World → (string * Z * string) * World;
  get_results : list string → World → list ResultRow * World
}.

(** The keyword arguments of [run_validations]. *)
Record Params := mkParams {
  validation_name : option (list string);
  inventory : string;
  group : option (list string);
  extra_vars : option string;
  validations_dir : option string;
  extra_env_vars : option string;
  ansible_cfg : option string;
  quiet : bool;
  workdir : option string;
  limit_hosts : option string;
  run_async : bool;
  base_dir : string;
  log_path : option string;
  python_interpreter : option string;
  output_callback : string;
  skip_list : option (gmap string SkipRule)
}.

(** [constants.DEFAULT_VALIDATIONS_BASEDIR], as the tests expect it. *)
Definition DEFAULT_VALIDATIONS_BASEDIR : string := "/usr/share/ansible/".

(** The default values of the keyword arguments. *)
Definition default_params : Params :=
  {| validation_name := None; inventory := "localhost"; group := None;
     extra_vars := None; validations_dir := None; extra_env_vars := None;
     ansible_cfg := None; quiet := true; workdir := None;
     limit_hosts := None; run_async := false;
     base_dir := DEFAULT_VALIDATIONS_BASEDIR; log_path := None;
     python_interpreter := None; output_callback := "validation_stdout";
     skip_list := None |}.

Section Run.

Context `{Collaborators}.

(** The calls made to the collaborators, with what they returned. *)
Inductive Event :=
| EvCreateArtifactsDir (dir_path : option string) (prefix : string)
                       (returned : string * string)
| EvAnsibleRun (validation_uuid : string) (args : Ansible.run_args)
               (returned : string * Z * string)
| EvGetResults (uuid : list string) (returned : list ResultRow).

Record St := mkSt {
  world : World;
  trace : list Event
}.

Definition call_create_artifacts_dir (dir_path : option string)
    (prefix : string) : M St (string * string) :=
  λ st, let '(r, w) := create_artifacts_dir dir_path prefix (world st) in
        (inr r, {| world := w;
                   trace := trace st ++ [EvCreateArtifactsDir dir_path prefix r] |}).

Definition call_ansible_run (validation_uuid : string)
    (args : Ansible.run_args) : M St (string * Z * string) :=
  λ st, let '(r, w) := ansible_run validation_uuid args (world st) in
        (inr r, {| world := w;
                   trace := trace st ++ [EvAnsibleRun validation_uuid args r] |}).

Definition call_get_results (uuid : list string) : M St (list ResultRow) :=
  λ st, let '(r, w) := get_results uuid (world st) in
        (inr r, {| world := w; trace := trace st ++ [EvGetResults uuid r] |}).

(** A pure step that may raise. *)
Definition lift {A} (r : Exn + A) : M St A :=
  match r with
  | inl e => raise e
  | inr a => ret a
  end.

(** Modelled from the spec: [v_utils.convert_data] is not part of the
    sources; names given as a list normalize to that list. *)
Definition convert_data (data : list string) : list string := data.

(** [repr] of a list of strings, for strings that [repr] prints between
    single quotes without escapes. *)
Definition repr_list (l : list string) : string :=
  "[" +:+ join ", " (map (λ x, "'" +:+ x +:+ "'") l) +:+ "]".

(** ["Validation {} not found in {}.".format(unknown_validation, validations_dir)] *)
Definition not_found_msg (unknown_validation : list string)
    (validations_dir : string) : string :=
  "Validation " +:+ repr_list unknown_validation +:+ " not found in "
  +:+ validations_dir +:+ ".".

(** [os.path.basename(os.path.splitext(play)[0])] *)
Definition play_id (play : string) : string := basename (fst (splitext play)).

(** [list(set(validation_name) - set(p))]; the order of the elements of a
    set is not specified. *)
Definition set_difference (validation_name p : list string) : list string :=
  elements ((list_to_set validation_name : gset string) ∖ list_to_set p).

(** The first part of [run_validations]: the playbooks to run. *)
Definition resolve_playbooks (validations_dir : string) (p : Params)
  : Exn + list string :=
  if ltruthy (group p) then
    match parse_all_validations_on_disk validations_dir
                                        (default [] (group p)) with
    | inl e => inl e
    | inr validations => inr (map (λ val, id val +:+ ".yaml") validations)
    end
  else if ltruthy (validation_name p) then
    let validation_name := convert_data (default [] (validation_name p)) in
    let playbooks :=
      get_validations_playbook validations_dir validation_name (group p) in
    if bool_decide (playbooks = []) ||
       negb (length validation_name =? length playbooks)%nat then
      let p := map play_id playbooks in
      let unknown_validation := set_difference validation_name p in
      inl (RuntimeError (not_found_msg unknown_validation validations_dir))
    else inr playbooks
  else inl (RuntimeError "No validations found").

(** The loop over the playbooks, with [results] as accumulator. *)
Fixpoint run_playbooks (validations_dir : string) (p : Params)
    (playbooks : list string) (results : list RunRecord)
  : M St (list RunRecord) :=
  match playbooks with
  | [] => mret results
  | playbook :: rest =>
      let play_name := basename (fst (splitext playbook)) in
      '(_play, _hosts) ← lift (_skip_playbook (skip_list p) play_name
                                              (limit_hosts p));
      if otruthy _play then
        '(validation_uuid, artifacts_dir) ←
          call_create_artifacts_dir (log_path p) (basename playbook);
        '(_playbook, _rc, _status) ←
          call_ansible_run validation_uuid
            {| Ansible.workdir := artifacts_dir;
               Ansible.playbook := playbook;
               Ansible.base_dir := base_dir p;
               Ansible.playbook_dir := validations_dir;
               Ansible.parallel_run := true;
               Ansible.inventory := inventory p;
               Ansible.output_callback := output_callback p;
               Ansible.quiet := quiet p;
               Ansible.extra_vars := extra_vars p;
               Ansible.limit_hosts := _hosts;
               Ansible.extra_env_variables := extra_env_vars p;
               Ansible.ansible_cfg := ansible_cfg p;
               Ansible.gathering_policy := "explicit";
               Ansible.ansible_artifact_path := artifacts_dir;
               Ansible.log_path := log_path p;
               Ansible.run_async := run_async p;
               Ansible.python_interpreter := python_interpreter p |};
        run_playbooks validations_dir p rest
          (results ++ [ {| playbook := _playbook;
                           rc_code := _rc;
                           status := _status;
                           validations := hd "" (split "." _playbook);
                           UUID := validation_uuid |} ])
      else run_playbooks validations_dir p rest results
  end.

(** What [run_validations] returns: the run records when [run_async] is
    set, the rows of the log results otherwise. *)
Inductive Output :=
| RunRecords (results : list RunRecord)
| LogResults (rows : list ResultRow).

(** [run_validations] of an object whose [validation_path] is
    [self_validation_path]. *)
Definition run_validations (self_validation_path : string) (p : Params)
  : M St Output :=
  let validations_dir :=
    if otruthy (validations_dir p) then default "" (validations_dir p)
    else self_validation_path in
  playbooks ← lift (resolve_playbooks validations_dir p);
  results ← run_playbooks validations_dir p playbooks [];
  if run_async p then mret (RunRecords results)
  else
    let uuid := map UUID results in
    rows ← call_get_results uuid;
    mret (LogResults rows).

End Run.

(** *** The status query *)

(** A task record of an execution log: [task['name']], [task['status']]
    and [task['hosts']], the dictionary from host names to the payload of
    the engine, as its items in iteration order. *)
Record Task (Payload : Type) := mkTask {
  task_name : string;
  task_status : string;
  task_hosts : list (string * Payload)
}.

Arguments mkTask {Payload}.
Arguments task_name {Payload}.
Arguments task_status {Payload}.
Arguments task_hosts {Payload}.

(** [d[k]] on the items of a dictionary. *)
Fixpoint getitem {V} (d : list (string * V)) (k : string) : Exn + V :=
  match d with
  | [] => inl (KeyError k)
  | (k', v) :: rest => if String.eqb k' k then inr v else getitem rest k
  end.

(** The log store: [ValidationLogs(log_path)] and [ValidationLog(logfile)]
    of [validations_libs.validation_logs]. *)
Class LogStore := {
  Payload : Type;
  get_logfile_by_validation : string → string → list string;
  get_logfile_by_uuid : string → string → list string;
  is_valid_format : string → bool;
  get_tasks_data : string → list (Task Payload)
}.

Section Status.

Context `{LogStore}.

Definition StatusRow : Type := string * string * string * Payload.

(** [for host in task['hosts']: values.append(...)] *)
Fixpoint append_hosts (task : Task Payload) (hosts : list string)
    (values : list StatusRow) : Exn + list StatusRow :=
  match hosts with
  | [] => inr values
  | host :: rest =>
      match getitem (task_hosts task) host with
      | inl e => inl e
      | inr data =>
          append_hosts task rest
            (values ++ [(task_name task, host, task_status task, data)])
      end
  end.

(** [for task in vlog.get_tasks_data: if task['status'] == status: ...] *)
Fixpoint append_tasks (status : string) (tasks : list (Task Payload))
    (values : list StatusRow) : Exn + list StatusRow :=
  match tasks with
  | [] => inr values
  | task :: rest =>
      if String.eqb (task_status task) status then
        match append_hosts task (map fst (task_hosts task)) values with
        | inl e => inl e
        | inr values => append_tasks status rest values
        end
      else append_tasks status rest values
  end.

(** [for log in logs: if vlog.is_valid_format(): ...] *)
Fixpoint append_logs (status : string) (logs : list string)
    (values : list StatusRow) : Exn + list StatusRow :=
  match logs with
  | [] => inr values
  | log :: rest =>
      if is_valid_format log then
        match append_tasks status (get_tasks_data log) values with
        | inl e => inl e
        | inr values => append_logs status rest values
        end
      else append_logs status rest values
  end.

(** [get_status(validation_id, uuid, status, log_path)] *)
Definition get_status (validation_id uuid : option string) (status : string)
    (log_path : string) : Exn + (list string * list StatusRow) :=
  match
    (if otruthy validation_id then
       inr (get_logfile_by_validation log_path (default "" validation_id))
     else if otruthy uuid then
       inr (get_logfile_by_uuid log_path (default "" uuid))
     else
       inl (RuntimeError "You need to provide a validation_id or a uuid"))
  with
  | inl e => inl e
  | inr logs =>
      let column_name := ["name"; "host"; "status"; "task_data"] in
      match append_logs status logs [] with
      | inl e => inl e
      | inr values => inr (column_name, values)
      end
  end.

End Status.

End ValidationActions.

Import PyStr OsPath ValidationActions.

(** ** Notions used by the statements *)

(** The skip rule of a validation suppresses its execution: this is the
    test [if _play:] of the loop of [run_validations]. *)
Definition runs (p : Params) (playbook : string) : bool :=
  match _skip_playbook (skip_list p) (play_id playbook) (limit_hosts p) with
  | inr (_play, _) => otruthy _play
  | inl _ => false
  end.

Section Events.

Context `{Collaborators}.

(** The run record that the loop appends after an engine call. *)
Definition record_of_event (ev : Event) : option RunRecord :=
  match ev with
  | EvAnsibleRun validation_uuid _ (_playbook, _rc, _status) =>
      Some {| playbook := _playbook; rc_code := _rc; status := _status;
              validations := hd "" (split "." _playbook);
              UUID := validation_uuid |}
  | _ => None
  end.

(** The playbook that an engine call was given. *)
Definition engine_playbook (ev : Event) : option string :=
  match ev with
  | EvAnsibleRun _ args _ => Some (Ansible.playbook args)
  | _ => None
  end.

(** The run identifier that a workspace allocation generated. *)
Definition created_uuid (ev : Event) : option string :=
  match ev with
  | EvCreateArtifactsDir _ _ (validation_uuid, _) => Some validation_uuid
  | _ => None
  end.

Definition is_get_results (ev : Event) : bool :=
  match ev with
  | EvGetResults _ _ => true
  | _ => false
  end.

(** The directory that [run_validations] searches. *)
Definition search_dir (self_validation_path : string) (p : Params) : string :=
  if otruthy (validations_dir p) then default "" (validations_dir p)
  else self_validation_path.

End Events.

(** [p] with another list of requested names. *)
Definition with_validation_name (names : option (list string)) (p : Params)
  : Params :=
  {| validation_name := names; inventory := inventory p; group := group p;
     extra_vars := extra_vars p; validations_dir := validations_dir p;
     extra_env_vars := extra_env_vars p; ansible_cfg := ansible_cfg p;
     quiet := quiet p; workdir := workdir p; limit_hosts := limit_hosts p;
     run_async := run_async p; base_dir := base_dir p;
     log_path := log_path p; python_interpreter := python_interpreter p;
     output_callback := output_callback p; skip_list := skip_list p |}.

(** The resolved limit as the specification words it: ['!h'] followed by
    the tokens of [L] that are not equal to [h]. *)
Definition spec_resolved_limit (h L : string) : string :=
  join "," (("!" +:+ h) :: List.filter (λ t, negb (String.eqb t h)) (split "," L)).

Section StatusSpec.

Context `{LogStore}.

(** The rows that a task contributes: one for each host of its [hosts]
    dictionary. *)
Definition task_rows (task : Task Payload) : list StatusRow :=
  map (λ '(host, data), (task_name task, host, task_status task, data))
      (task_hosts task).

(** The tasks of the logs of valid format whose status is [status]. *)
Definition matching_tasks (status : string) (logs : list string)
  : list (Task Payload) :=
  flat_map (λ log,
    if is_valid_format log then
      List.filter (λ task, String.eqb (task_status task) status)
                  (get_tasks_data log)
    else []) logs.

(** The keys of the [hosts] dictionary of every task are distinct, as the
    keys of a dictionary are. *)
Definition distinct_hosts (tasks : list (Task Payload)) : Prop :=
  ∀ task, In task tasks → List.NoDup (map fst (task_hosts task)).

(** The logs that [get_status] reads. *)
Definition queried_logs (validation_id uuid : option string)
    (log_path : string) : option (list string) :=
  if otruthy validation_id then
    Some (get_logfile_by_validation log_path (default "" validation_id))
  else if otruthy uuid then
    Some (get_logfile_by_uuid log_path (default "" uuid))
  else None.

End StatusSpec.

(** ** A catalog on disk and a recording engine

    Concrete collaborators, on which the statements are evaluated. *)

Module Catalog.

(** A validation on disk: the path of its playbook and its groups. *)
Record Unit := mkUnit {
  unit_path : string;
  unit_groups : list string
}.

Definition unit_id (u : Unit) : string := play_id (unit_path u).

Definition in_list (x : string) (l : list string) : bool :=
  existsb (String.eqb x) l.

(** Modelled from the spec: [v_utils.parse_all_validations_on_disk] is not
    part of the sources; it includes every unit whose group set intersects
    the requested groups. *)
Definition parse_all (catalog : list Unit) (path : string)
    (groups : list string) : Exn + list ValidationData :=
  inr (map (λ u, {| id := unit_id u; name := unit_id u;
                    groups := unit_groups u |})
           (List.filter (λ u, existsb (λ g, in_list g groups) (unit_groups u))
                        catalog)).

(** Modelled from the spec: [v_utils.get_validations_playbook] is not part
    of the sources; it resolves the requested names against the catalog
    and returns the playbooks of the units that are requested. *)
Definition get_playbooks (catalog : list Unit) (path : string)
    (validation_id : list string) (groups : option (list string))
  : list string :=
  map unit_path (List.filter (λ u, in_list (unit_id u) validation_id) catalog).

(** An engine that answers from a table of outcomes by playbook name, a
    workspace allocator that numbers the runs, and a log reader that
    returns the identifiers it was asked for. The world is the number of
    workspaces allocated so far. *)
Definition collaborators (catalog : list Unit)
    (outcome : string → Z * string) : Collaborators :=
  {| World := nat;
     ResultRow := string;
     parse_all_validations_on_disk := parse_all catalog;
     get_validations_playbook := get_playbooks catalog;
     create_artifacts_dir := λ dir_path prefix w,
       (("uuid-" +:+ pretty w, "/tmp/" +:+ prefix), S w);
     ansible_run := λ validation_uuid args w,
       ((basename (Ansible.playbook args),
         fst (outcome (basename (Ansible.playbook args))),
         snd (outcome (basename (Ansible.playbook args)))), w);
     get_results := λ uuid w, (uuid, w) |}.

(** Union semantics as the specification words it: a unit is selected if
    it matches a requested name or belongs to a requested group. *)
Definition selected_by_union (names groups : list string) (u : Unit) : bool :=
  in_list (unit_id u) names ||
  existsb (λ g, in_list g groups) (unit_groups u).

(** A request with the default values of the other arguments. *)
Definition request (names groups : option (list string))
    (limit : option string) (async : bool)
    (skip : option (gmap string SkipRule)) : Params :=
  {| validation_name := names; inventory := "localhost"; group := groups;
     extra_vars := None; validations_dir := Some "/tmp/foo";
     extra_env_vars := None; ansible_cfg := None; quiet := true;
     workdir := None; limit_hosts := limit; run_async := async;
     base_dir := DEFAULT_VALIDATIONS_BASEDIR; log_path := None;
     python_interpreter := None; output_callback := "validation_stdout";
     skip_list := skip |}.

Definition two_units : list Unit :=
  [ mkUnit "/tmp/foo/foo.yaml" ["prep"];
    mkUnit "/tmp/foo/bar.yaml" ["post"] ].

(** [foo] fails with return code 2, the others succeed. *)
Definition foo_fails (playbook : string) : Z * string :=
  if String.eqb playbook "foo.yaml" then (2%Z, "failed")
  else (0%Z, "successful").

Definition sample : Collaborators := collaborators two_units foo_fails.

(** No workspace allocated and no call made. *)
Definition initial : @St sample := @mkSt sample O [].

Definition skip_foo (h : option string) : option (gmap string SkipRule) :=
  Some {[ "foo" := mkSkipRule h None None ]}.

(** A log store with one log of valid format. *)
Definition log_store (tasks : list (Task string)) : LogStore :=
  {| Payload := string;
     get_logfile_by_validation := λ log_path validation_id,
       [log_path +:+ "/" +:+ validation_id +:+ ".json"];
     get_logfile_by_uuid := λ log_path uuid,
       [log_path +:+ "/" +:+ uuid +:+ ".json"];
     is_valid_format := λ log, true;
     get_tasks_data := λ log, tasks |}.

End Catalog.

(** ** Notions used by the further statements *)

(** [p] with another [skip_list]. *)
Definition with_skip_list (skip : option (gmap string SkipRule)) (p : Params)
  : Params :=
  {| validation_name := validation_name p; inventory := inventory p;
     group := group p; extra_vars := extra_vars p;
     validations_dir := validations_dir p;
     extra_env_vars := extra_env_vars p; ansible_cfg := ansible_cfg p;
     quiet := quiet p; workdir := workdir p; limit_hosts := limit_hosts p;
     run_async := run_async p; base_dir := base_dir p;
     log_path := log_path p; python_interpreter := python_interpreter p;
     output_callback := output_callback p; skip_list := skip |}.


Section Dispatch.

Context `{Collaborators}.


End Dispatch.

(** ** Dictionaries with string keys

    A dictionary is the list of its items in insertion order; the keys of a
    dictionary are distinct. *)

Module PyDict.

Section Dict.

Context {V : Type}.

(** [d.get(k)] *)
Fixpoint get (d : list (string * V)) (k : string) : option V :=
  match d with
  | [] => None
  | (k', v) :: rest => if String.eqb k' k then Some v else get rest k
  end.

(** [k in d] *)
Definition mem (d : list (string * V)) (k : string) : bool :=
  match get d k with Some _ => true | None => false end.

(** [d[k] = v]: the value of an existing key is replaced in place, a new
    key is added last. *)
Fixpoint set (d : list (string * V)) (k : string) (v : V)
  : list (string * V) :=
  match d with
  | [] => [(k, v)]
  | (k', v') :: rest =>
      if String.eqb k' k then (k', v) :: rest else (k', v') :: set rest k v
  end.

(** [d.update(other)] for a dictionary [other]. *)
Definition update (d other : list (string * V)) : list (string * V) :=
  fold_left (λ acc '(k, v), set acc k v) other d.

(** [d.pop(k)] for a key of [d]: the dictionary without the key. *)
Fixpoint remove (d : list (string * V)) (k : string) : list (string * V) :=
  match d with
  | [] => []
  | (k', v') :: rest =>
      if String.eqb k' k then rest else (k', v') :: remove rest k
  end.

End Dict.

End PyDict.

(** ** A validation playbook (ova/validation.py) *)

Module Validation.

(** The values that [yaml.safe_load] gives, with mappings whose keys are
    strings. *)
#[warnings="-register-all"]
Inductive yaml :=
| YNone
| YBool (b : bool)
| YInt (z : Z)
| YStr (s : string)
| YList (l : list yaml)
| YDict (d : list (string * yaml)).

Inductive Error :=
| IOError (msg : string)
| IndexError
| NameError (msg : string)
| AttributeError
| TypeError.

(** The object: [self.dict] and [self.id]. *)
Record t := mk {
  dict : yaml;
  id : string
}.

(** [_get_content(val_path)] on a file system that gives, for the path of
    a readable file, the list of documents that [yaml.safe_load] returns. *)
Definition _get_content (fs : string → option (list yaml)) (val_path : string)
  : Error + yaml :=
  match fs val_path with
  | None => inl (IOError "Validation playbook not found")
  | Some [] => inl IndexError
  | Some (play :: _) => inr play
  end.

(** [Validation(validation_path)] *)
Definition init (fs : string → option (list yaml)) (validation_path : string)
  : Error + t :=
  match _get_content fs validation_path with
  | inl e => inl e
  | inr content =>
      inr {| dict := content;
             id := fst (splitext (basename validation_path)) |}
  end.

(** [x.keys()] is defined on mappings. *)
Definition keys_of (x : yaml) : Error + list (string * yaml) :=
  match x with
  | YDict d => inr d
  | _ => inl AttributeError
  end.

Definition has_vars_dict (self : t) : Error + bool :=
  match keys_of (dict self) with
  | inl e => inl e
  | inr d => inr (PyDict.mem d "vars")
  end.

(** [self.dict['vars']], read when ['vars'] is a key. *)
Definition vars_of (self : t) : yaml :=
  match dict self with
  | YDict d => default YNone (PyDict.get d "vars")
  | _ => YNone
  end.

Definition has_metadata_dict (self : t) : Error + bool :=
  match has_vars_dict self with
  | inl e => inl e
  | inr false => inr false
  | inr true =>
      match keys_of (vars_of self) with
      | inl e => inl e
      | inr v => inr (PyDict.mem v "metadata")
      end
  end.

Definition no_metadata (self : t) : Error :=
  NameError ("No metadata found in validation " +:+ id self).

(** [self.dict['vars'].get('metadata')] *)
Definition metadata_of (self : t) : yaml :=
  match vars_of self with
  | YDict v => default YNone (PyDict.get v "metadata")
  | _ => YNone
  end.

(** [get_metadata]. The metadata entry is read as a mapping; [update]
    with [None], a boolean or a number raises [TypeError], and the model
    gives [TypeError] for every other value that is not a mapping. *)
Definition get_metadata (self : t) : Error + list (string * yaml) :=
  match has_metadata_dict self with
  | inl e => inl e
  | inr false => inl (no_metadata self)
  | inr true =>
      match metadata_of self with
      | YDict m => inr (PyDict.update [("id", YStr (id self))] m)
      | _ => inl TypeError
      end
  end.

(** [get_vars]: a copy of the variables without the metadata. *)
Definition get_vars (self : t) : Error + list (string * yaml) :=
  match has_metadata_dict self with
  | inl e => inl e
  | inr false => inl (no_metadata self)
  | inr true =>
      match vars_of self with
      | YDict v => inr (PyDict.remove v "metadata")
      | _ => inl AttributeError
      end
  end.

Definition get_data (self : t) : yaml := dict self.

(** [groups]: [self.dict['vars']['metadata'].get('groups', [])] *)
Definition groups (self : t) : Error + yaml :=
  match has_metadata_dict self with
  | inl e => inl e
  | inr false => inl (no_metadata self)
  | inr true =>
      match keys_of (metadata_of self) with
      | inl e => inl e
      | inr m => inr (default (YList []) (PyDict.get m "groups"))
      end
  end.

Definition get_id (self : t) : string := id self.

Definition _col_keys : list string := ["ID"; "Name"; "Description"; "Groups"].

(** [str.lower] on the letters of ASCII. *)
Definition lower_ascii (a : ascii) : ascii :=
  let n := nat_of_ascii a in
  if (65 <=? n)%nat && (n <=? 90)%nat then ascii_of_nat (n + 32) else a.

Fixpoint lower (s : string) : string :=
  match s with
  | EmptyString => EmptyString
  | String a s' => String (lower_ascii a) (lower s')
  end.

(** [for k in self._col_keys: if key == k.lower(): output_key = k], for a
    key that is the lower case of one of [_col_keys], so that [output_key]
    is assigned. *)
Definition output_key (key : string) : string :=
  fold_left (λ output_key k, if String.eqb key (lower k) then k else output_key)
            _col_keys key.

(** The loop of [get_formated_data] over the keys of the metadata. *)
Definition format_keys (metadata : list (string * yaml)) (keys : list string)
    (data : list (string * yaml)) : list (string * yaml) :=
  fold_left
    (λ data key,
       if existsb (String.eqb key) (map lower _col_keys) then
         PyDict.set data (output_key key)
                    (default YNone (PyDict.get metadata key))
       else
         PyDict.set data key (default YNone (PyDict.get metadata key)))
    keys data.

(** The key under which [get_formated_data] stores the value of [key]. *)
Definition display_key (key : string) : string :=
  if existsb (String.eqb key) (map lower _col_keys) then output_key key
  else key.

Definition get_formated_data (self : t) : Error + list (string * yaml) :=
  match get_metadata self with
  | inl e => inl e
  | inr metadata =>
      match metadata with
      | [] => inr []
      | _ :: _ => inr (format_keys metadata (map fst metadata) [])
      end
  end.

(** The playbook of the documentation of the class, with a variable. *)
Definition hello_world : t :=
  {| dict :=
       YDict [ ("hosts", YStr "webserver");
               ("vars",
                YDict [ ("metadata",
                         YDict [ ("name", YStr "Hello World");
                                 ("description",
                                  YStr "This validation prints Hello World!");
                                 ("groups",
                                  YList [YStr "pre-deployment";
                                         YStr "hardware"]) ]);
                        ("var_name1", YStr "value1") ]);
               ("roles", YList [YStr "hello-world"]) ];
     id := "hello-world" |}.

End Validation.

(** ** The other queries of [ValidationActions] *)

Module Queries.

(** *** [show_history] *)

(** The [duration] of a play: [start] and [time_elapsed], [None] when the
    key is missing. *)
Record Duration := mkDuration {
  start : option string;
  time_elapsed : option string
}.

(** A play of an execution log; a field is [None] when the key is
    missing. *)
Record Play := mkPlay {
  play_id : option string;
  play_validation_id : option string;
  play_duration : option Duration
}.

(** The plays and the status of a log: [ValidationLog(logfile).get_plays]
    and [.get_status], and [ValidationLogs(log_path).get_all_logfiles]. *)
Class PlayStore := {
  get_all_logfiles : string → string → list string;
  get_plays : string → list Play;
  get_log_status : string → string
}.

(** [validation_ids], a string or a list of strings. *)
Inductive ids_arg :=
| IdStr (s : string)
| IdList (l : list string).

Definition ids_truthy (validation_ids : option ids_arg) : bool :=
  match validation_ids with
  | None => false
  | Some (IdStr s) => truthy s
  | Some (IdList []) => false
  | Some (IdList (_ :: _)) => true
  end.

Definition HistoryRow : Type :=
  string * string * string * option string * option string.

Section History.

Context `{LogStore} `{PlayStore}.

(** [for validation_id in validation_ids: logs.extend(...)] *)
Fixpoint extend_logs (log_path : string) (validation_ids : list string)
    (logs : list string) : list string :=
  match validation_ids with
  | [] => logs
  | validation_id :: rest =>
      extend_logs log_path rest
        (logs ++ get_logfile_by_validation log_path validation_id)
  end.

(** [for play in vlog.get_plays: values.append(...)] *)
Fixpoint append_plays (log : string) (plays : list Play)
    (values : list HistoryRow) : Exn + list HistoryRow :=
  match plays with
  | [] => inr values
  | play :: rest =>
      match play_id play with
      | None => inl (KeyError "id")
      | Some id =>
          match play_validation_id play with
          | None => inl (KeyError "validation_id")
          | Some validation_id =>
              match play_duration play with
              | None => inl (KeyError "duration")
              | Some duration =>
                  append_plays log rest
                    (values ++ [(id, validation_id, get_log_status log,
                                 start duration, time_elapsed duration)])
              end
          end
      end
  end.

(** [for log in logs: if vlog.is_valid_format(): ...] *)
Fixpoint append_history (logs : list string) (values : list HistoryRow)
  : Exn + list HistoryRow :=
  match logs with
  | [] => inr values
  | log :: rest =>
      if is_valid_format log then
        match append_plays log (get_plays log) values with
        | inl e => inl e
        | inr values => append_history rest values
        end
      else append_history rest values
  end.

(** [show_history(validation_ids, extension, log_path)] *)
Definition show_history (validation_ids : option ids_arg)
    (extension : string) (log_path : string)
  : Exn + (list string * list HistoryRow) :=
  let logs :=
    if ids_truthy validation_ids then
      let validation_ids :=
        match validation_ids with
        | Some (IdList l) => l
        | Some (IdStr s) => [s]
        | None => []
        end in
      extend_logs log_path validation_ids []
    else get_all_logfiles log_path extension in
  let column_name :=
    ["UUID"; "Validations"; "Status"; "Execution at"; "Duration"] in
  match append_history logs [] with
  | inl e => inl e
  | inr values => inr (column_name, values)
  end.

(** The row of a play that has its three keys. *)
Definition play_row (log : string) (play : Play) : option HistoryRow :=
  match play_id play, play_validation_id play, play_duration play with
  | Some id, Some validation_id, Some duration =>
      Some (id, validation_id, get_log_status log,
            start duration, time_elapsed duration)
  | _, _, _ => None
  end.

(** The rows of the plays of the logs of valid format. *)
Definition history_of (logs : list string) : list HistoryRow :=
  flat_map (λ log, if is_valid_format log
                   then omap (play_row log) (get_plays log) else []) logs.

(** The logs that [show_history] reads: those of the validations given,
    in order, or all the logs. *)
Definition history_logs (validation_ids : option ids_arg)
    (extension : string) (log_path : string) : list string :=
  match validation_ids with
  | Some (IdList (id :: l)) =>
      flat_map (get_logfile_by_validation log_path) (id :: l)
  | Some (IdStr (String a s)) =>
      get_logfile_by_validation log_path (String a s)
  | _ => get_all_logfiles log_path extension
  end.

(** Every play of the logs of valid format has its three keys. *)
Definition complete_plays (logs : list string) : Prop :=
  ∀ log play, In log logs → is_valid_format log = true →
              In play (get_plays log) → is_Some (play_row log play).

End History.

(** *** [show_validations] *)

(** [v_utils.get_validations_data], the contents of the logs of a
    validation and [ValidationLogs.get_validations_stats]. *)
Class ShowStore := {
  Value : Type;
  LogContent : Type;
  get_validations_data : string → string → option (list (string * Value));
  get_logfile_content_by_validation : string → string → list LogContent;
  get_validations_stats : list LogContent → list (string * Value)
}.

Section Show.

Context `{ShowStore}.

(** [show_validations(validation, log_path)] of an object whose
    [validation_path] is [self_validation_path]. *)
Definition show_validations (self_validation_path : string)
    (validation : string) (log_path : string)
  : Exn + list (string * Value) :=
  match get_validations_data validation self_validation_path with
  | None | Some [] =>
      inl (RuntimeError ("Validation " +:+ validation
                         +:+ " not found in the path: "
                         +:+ self_validation_path))
  | Some data =>
      let logfiles := get_logfile_content_by_validation log_path validation in
      let data_format := get_validations_stats logfiles in
      inr (PyDict.update data data_format)
  end.

End Show.

(** *** [show_validations_parameters] *)

(** What is serialized: the parameters by validation, or the parameters
    alone. *)
Inductive Document (V : Type) :=
| ByValidation (params : list (string * list (string * V)))
| ParametersOnly (params_only : list (string * V)).

Arguments ByValidation {V}.
Arguments ParametersOnly {V}.

(** [v_utils.get_validations_playbook], [v_utils.get_validations_parameters]
    (which gives, for each validation, the dictionary under its
    ['parameters'] key), [json.dumps] and [yaml.safe_dump] with the
    options of the source. *)
Class ParameterTools := {
  ParamValue : Type;
  find_playbooks : string → list string → list string → list string;
  get_validations_parameters :
    list string → list string → list string
    → list (string * list (string * ParamValue));
  json_dumps : Document ParamValue → string;
  yaml_safe_dump : Document ParamValue → string
}.

(** The calls on the file system. *)
Inductive FileEvent :=
| EvOpenW (path : string)
| EvWrite (path : string) (content : string).

Section Parameters.

Context `{ParameterTools}.

Definition call_open_w (path : string) : M (list FileEvent) unit :=
  λ fs, (inr tt, fs ++ [EvOpenW path]).

Definition call_write (path content : string) : M (list FileEvent) unit :=
  λ fs, (inr tt, fs ++ [EvWrite path content]).

(** [for val_name in params.keys():
       params_only.update(params[val_name].get('parameters'))] *)
Definition parameters_only
    (params : list (string * list (string * ParamValue)))
  : list (string * ParamValue) :=
  fold_left (λ params_only '(val_name, parameters),
               PyDict.update params_only parameters)
            params [].

(** [show_validations_parameters(validation, group, output_format,
    download_file)] *)
Definition show_validations_parameters (self_validation_path : string)
    (validation group : option (list string)) (output_format : string)
    (download_file : option string) : M (list FileEvent) string :=
  let validation := if ltruthy validation then default [] validation else [] in
  let group := if ltruthy group then default [] group else [] in
  let supported_format := ["json"; "yaml"] in
  if negb (existsb (String.eqb output_format) supported_format) then
    raise (RuntimeError (output_format +:+ " output format not supported"))
  else
    let validations :=
      find_playbooks self_validation_path validation group in
    let params := get_validations_parameters validations validation group in
    _ ← (if otruthy download_file then
           let download_file := default "" download_file in
           _ ← call_open_w download_file;
           let params_only := parameters_only params in
           if String.eqb output_format "json" then
             call_write download_file (json_dumps (ParametersOnly params_only))
           else
             call_write download_file
                        (yaml_safe_dump (ParametersOnly params_only))
         else mret tt);
    if String.eqb output_format "json" then
      mret (json_dumps (ByValidation params))
    else mret (yaml_safe_dump (ByValidation params)).

End Parameters.

End Queries.

(** ** The client (ova/ova_client.py) *)

Module Client.

(** [dict(e.split("=") for e in parsed_args.extra_vars)]: every element
    must have two items, or [dict] raises [ValueError]. *)
Fixpoint dict_of_pairs (items : list (list string))
    (d : list (string * string)) : option (list (string * string)) :=
  match items with
  | [] => Some d
  | [k; v] :: rest => dict_of_pairs rest (PyDict.set d k v)
  | _ :: _ => None
  end.

(** The value of [extra_vars] that [take_action] passes on: the option as
    it was parsed, or the dictionary made of it. *)
Inductive ExtraVars :=
| AsParsed (extra_vars : option (list string))
| AsDict (d : list (string * string)).

(** The part of [ValidationClientRun.take_action] that reads
    [extra_vars]: [None] and the empty list are passed on, a list of
    [KEY=VALUE] becomes a dictionary, and the [ValueError] becomes a
    [RuntimeError]. *)
Definition read_extra_vars (extra_vars : option (list string))
  : Exn + ExtraVars :=
  if ltruthy extra_vars then
    match dict_of_pairs (map (split "=") (default [] extra_vars)) [] with
    | Some d => inr (AsDict d)
    | None =>
        inl (RuntimeError "extra vars option should be formed as: KEY=VALUE.")
    end
  else inr (AsParsed extra_vars).

(** The number of occurrences of a character. *)
Fixpoint count_char (c : ascii) (s : string) : nat :=
  match s with
  | EmptyString => O
  | String a s' => (if Ascii.eqb a c then 1 else 0) + count_char c s'
  end.

End Client.

(** ** Sample stores for the queries *)

Module Samples.

Import Queries.

(** Every log has one play, of the validation [foo], and passed. *)
Definition play_store : PlayStore :=
  {| get_all_logfiles := λ log_path extension,
       [log_path +:+ "/all." +:+ extension];
     get_plays := λ log,
       [ {| play_id := Some log;
            play_validation_id := Some "foo";
            play_duration :=
              Some {| start := Some "2019-11-25T13:40:14.404623Z";
                      time_elapsed := Some "0:00:03.753" |} |} ];
     get_log_status := λ log, "PASSED" |}.

(** The data of the validation [foo] and the statistics of its logs. *)
Definition show_store : ShowStore :=
  {| Value := string;
     LogContent := string;
     get_validations_data := λ validation path,
       if String.eqb validation "foo"
       then Some [("ID", "foo"); ("Name", "The validation foo")]
       else None;
     get_logfile_content_by_validation := λ log_path validation, [];
     get_validations_stats := λ logfiles,
       [("Last execution date", "None");
        ("Number of execution", "Total: 0, Passed: 0, Failed: 0")] |}.

(** Two validations with one parameter each, and serializers that print
    the names of the entries. *)
Definition parameter_tools : ParameterTools :=
  {| ParamValue := string;
     find_playbooks := λ path validation group,
       map (λ v, path +:+ "/" +:+ v +:+ ".yaml") validation;
     get_validations_parameters := λ validations validation group,
       [("check-cpu", [("minimal_cpu_count", "8")]);
        ("check-ram", [("minimal_ram_gb", "24")])];
     json_dumps := λ doc,
       match doc with
       | ByValidation params => "json:" +:+ join "," (map fst params)
       | ParametersOnly params_only =>
           "json:" +:+ join "," (map fst params_only)
       end;
     yaml_safe_dump := λ doc,
       match doc with
       | ByValidation params => "yaml:" +:+ join "," (map fst params)
       | ParametersOnly params_only =>
           "yaml:" +:+ join "," (map fst params_only)
       end |}.

End Samples.

(** * Properties *)

(** ** Strings *)

Section StringFacts.

Lemma split_nonempty c s : split c s ≠ [].
Proof.
  destruct s as [|a s]; simpl; [done|].
  destruct (Ascii.eqb a c); [done|].
  by destruct (split c s).
Qed.

(** No token of [s.split(c)] contains [c]. *)
Lemma split_tokens_free c s :
  Forall (λ t, has_char c t = false) (split c s).
Proof.
  induction s as [|a s IH]; simpl.
  - by constructor.
  - destruct (Ascii.eqb a c) eqn:E.
    + by constructor.
    + destruct (split c s) as [|t ts]; inversion IH; subst;
        constructor; simpl; rewrite ?E; auto.
Qed.

Lemma split_free c s : has_char c s = false → split c s = [s].
Proof.
  induction s as [|a s IH]; simpl; [done|].
  destruct (Ascii.eqb a c); simpl; [done|].
  intros Hs. by rewrite IH.
Qed.

Lemma split_app_sep c x s :
  has_char c x = false →
  split c (x +:+ String c s) = x :: split c s.
Proof.
  induction x as [|a x IH]; simpl.
  - intros _. by rewrite Ascii.eqb_refl.
  - destruct (Ascii.eqb a c); simpl; [done|].
    intros Hx. by rewrite IH.
Qed.

(** Splitting a joined list of separator-free tokens gives the tokens back. *)
Lemma split_join c xs :
  xs ≠ [] →
  Forall (λ t, has_char c t = false) xs →
  split c (join (String c "") xs) = xs.
Proof.
  induction xs as [|x xs IH]; [done|].
  intros _ Hall. inversion Hall as [|? ? Hx Hxs]; subst.
  destruct xs as [|y ys].
  - simpl. by apply split_free.
  - change (join (String c "") (x :: y :: ys))
      with (x +:+ String c (join (String c "") (y :: ys))).
    rewrite split_app_sep by done.
    by rewrite IH.
Qed.

Lemma startswith_app h s : startswith h (h +:+ s) = true.
Proof.
  induction h as [|a h IH]; simpl; [done|].
  by rewrite Ascii.eqb_refl.
Qed.

Lemma startswith_inv h t :
  startswith h t = true → ∃ s, t = h +:+ s.
Proof.
  revert t. induction h as [|a h IH]; intros t; simpl.
  - by exists t.
  - destruct t as [|b t]; [done|].
    intros [Hab Hs]%andb_prop.
    apply Ascii.eqb_eq in Hab as ->.
    destruct (IH _ Hs) as [s ->]. by exists s.
Qed.

(** [contains] is the substring test. *)
Lemma contains_spec h t :
  contains h t = true ↔ ∃ s1 s2, t = s1 +:+ h +:+ s2.
Proof.
  split.
  - induction t as [|b t IH]; simpl.
    + rewrite orb_false_r. intros [s ->]%startswith_inv.
      by exists "", s.
    + intros [Hs|Hc]%orb_prop.
      * apply startswith_inv in Hs as [s ->]. by exists "", s.
      * destruct (IH Hc) as (s1 & s2 & ->). by exists (String b s1), s2.
  - intros (s1 & s2 & ->).
    induction s1 as [|a s1 IH].
    + change ("" +:+ h +:+ s2) with (h +:+ s2).
      destruct (h +:+ s2) eqn:E; simpl; rewrite <- E, startswith_app; done.
    + change (String a s1 +:+ h +:+ s2) with (String a (s1 +:+ h +:+ s2)).
      simpl. rewrite IH. apply orb_true_r.
Qed.

Lemma append_empty_r s : s +:+ "" = s.
Proof.
  induction s as [|a s IH]; [done|].
  change (String a s +:+ "") with (String a (s +:+ "")). by rewrite IH.
Qed.

Lemma contains_refl h : contains h h = true.
Proof.
  apply contains_spec. exists "", "".
  by rewrite append_empty_r.
Qed.

Lemma contains_bang h : contains h ("!" +:+ h) = true.
Proof.
  apply contains_spec. exists "!", "".
  by rewrite append_empty_r.
Qed.

End StringFacts.

(** ** The skip resolver *)

Section SkipResolver.

Implicit Types (m : gmap string SkipRule) (rule : SkipRule).

(** The tokens of the user limit that [_skip_hosts] keeps. *)
Lemma skip_hosts_value m pb rule h (L : option string) :
  m !! pb = Some rule → hosts rule = Some h → h ≠ "ALL" →
  _skip_hosts m pb L =
    inr (Some (join "," (("!" +:+ h) ::
      if otruthy L
      then List.filter (λ t, negb (contains h t)) (split "," (default "" L))
      else []))).
Proof.
  intros Hm Hh Hall. unfold _skip_hosts. rewrite Hm, Hh.
  destruct (String.eqb h "ALL") eqn:E.
  - by apply String.eqb_eq in E.
  - by destruct (otruthy L).
Qed.

Lemma bang_free h : has_char "," h = false → has_char "," ("!" +:+ h) = false.
Proof. intros Hh. by change ("!" +:+ h) with (String "!" h). Qed.

Lemma kept_tokens_free h L :
  Forall (λ t, has_char "," t = false)
         (List.filter (λ t, negb (contains h t)) (split "," L)).
Proof.
  apply List.Forall_forall. intros t [Ht _]%filter_In.
  pose proof (split_tokens_free "," L) as Hall.
  rewrite List.Forall_forall in Hall. by apply Hall.
Qed.

Lemma truthy_ne s : s ≠ "" → truthy s = true.
Proof. by destruct s. Qed.

End SkipResolver.

(** C1 (as amended). For a skip rule with a specific host [h] and a
    non-empty user limit [L], [_skip_hosts] returns the comma-joined list
    made of ['!h'] followed by the tokens of [L] that do not contain [h] as
    a substring, in their original order; no token equal to [h] is kept;
    and when [h] has no comma, these are the tokens of the returned
    string. *)
Theorem skip_hosts_specific_host
    (m : gmap string SkipRule) pb rule h L :
  m !! pb = Some rule → hosts rule = Some h → h ≠ "ALL" → L ≠ "" →
  let kept := List.filter (λ t, negb (contains h t)) (split "," L) in
  _skip_hosts m pb (Some L) = inr (Some (join "," (("!" +:+ h) :: kept)))
  ∧ ¬ In h kept
  ∧ (has_char "," h = false →
     split "," (join "," (("!" +:+ h) :: kept)) = ("!" +:+ h) :: kept).
Proof.
  intros Hm Hh Hall HL kept. repeat split.
  - rewrite (skip_hosts_value m pb rule h (Some L)) by done.
    simpl. by rewrite truthy_ne.
  - intros [_ Hc]%filter_In. by rewrite contains_refl in Hc.
  - intros Hfree. apply split_join; [done|].
    constructor; [by apply bang_free | apply kept_tokens_free].
Qed.

Lemma skip_hosts_specific_host_witness :
  _skip_hosts {[ "fake" := mkSkipRule (Some "cloud1") None None ]} "fake"
              (Some "cloud,cloud1,!cloud2")
  = inr (Some "!cloud1,cloud,!cloud2").
Proof.
  refine (proj1 (skip_hosts_specific_host
           {[ "fake" := mkSkipRule (Some "cloud1") None None ]} "fake"
           (mkSkipRule (Some "cloud1") None None) "cloud1"
           "cloud,cloud1,!cloud2" _ _ _ _)).
  - vm_compute. reflexivity.
  - reflexivity.
  - discriminate.
  - discriminate.
Defined.

(** C1 (as stated) fails: with [h = 'cloud1'] and [L = 'cloud10,cloud2']
    the token ['cloud10'] is not equal to [h], yet it is not in the
    result. *)
Lemma skip_hosts_equal_tokens_counterexample :
  _skip_hosts {[ "fake" := mkSkipRule (Some "cloud1") None None ]} "fake"
              (Some "cloud10,cloud2")
  = inr (Some "!cloud1,cloud2")
  ∧ spec_resolved_limit "cloud1" "cloud10,cloud2" = "!cloud1,cloud10,cloud2"
  ∧ _skip_hosts {[ "fake" := mkSkipRule (Some "cloud1") None None ]} "fake"
                (Some "cloud10,cloud2")
    ≠ inr (Some (spec_resolved_limit "cloud1" "cloud10,cloud2")).
Proof. vm_compute. repeat split; discriminate. Qed.

(** C10. For a skip rule with a specific host [h] and a non-empty user
    limit [L], every token of [L] that contains [h] as a substring is
    absent from the tokens that follow ['!h'] in the result: so are
    ['!h'] itself and any longer name [s1 h s2], such as ['cloud10'] for
    [h = 'cloud1']. *)
Theorem skip_hosts_drops_substring_tokens
    (m : gmap string SkipRule) pb rule h L :
  m !! pb = Some rule → hosts rule = Some h → h ≠ "ALL" → L ≠ "" →
  ∃ rest,
    _skip_hosts m pb (Some L) = inr (Some (join "," (("!" +:+ h) :: rest)))
    ∧ (has_char "," h = false →
       split "," (join "," (("!" +:+ h) :: rest)) = ("!" +:+ h) :: rest)
    ∧ (∀ t, In t (split "," L) → contains h t = true → ¬ In t rest)
    ∧ ¬ In ("!" +:+ h) rest
    ∧ (∀ s1 s2, ¬ In (s1 +:+ h +:+ s2) rest).
Proof.
  intros Hm Hh Hall HL.
  exists (List.filter (λ t, negb (contains h t)) (split "," L)).
  destruct (skip_hosts_specific_host m pb rule h L Hm Hh Hall HL)
    as (Hval & _ & Hsplit).
  repeat split; try done.
  - intros t _ Ht [_ Hc]%filter_In. by rewrite Ht in Hc.
  - intros [_ Hc]%filter_In. by rewrite contains_bang in Hc.
  - intros s1 s2 [_ Hc]%filter_In.
    assert (contains h (s1 +:+ h +:+ s2) = true) as Ht
      by (apply contains_spec; eauto).
    by rewrite Ht in Hc.
Qed.

Lemma skip_hosts_drops_substring_tokens_witness :
  ∃ rest,
    _skip_hosts {[ "fake" := mkSkipRule (Some "cloud1") None None ]} "fake"
                (Some "cloud10,!cloud1,cloud2")
    = inr (Some (join "," ("!cloud1" :: rest)))
    ∧ ¬ In "cloud10" rest ∧ ¬ In "!cloud1" rest.
Proof.
  destruct (skip_hosts_drops_substring_tokens
              {[ "fake" := mkSkipRule (Some "cloud1") None None ]} "fake"
              (mkSkipRule (Some "cloud1") None None) "cloud1"
              "cloud10,!cloud1,cloud2")
    as (rest & Hval & _ & _ & Hbang & Hlong).
  - vm_compute. reflexivity.
  - reflexivity.
  - discriminate.
  - discriminate.
  - exists rest. split; [exact Hval|]. split; [|exact Hbang].
    exact (Hlong "" "0").
Defined.

(** ** The loop of [run_validations] *)

Section Orchestrator.

Context `{Collaborators}.

(** [_skip_hosts] is only called on a key of [skip_list] and returns. *)
Lemma skip_playbook_returns sl pn L :
  ∃ r, _skip_playbook sl pn L = inr r.
Proof.
  unfold _skip_playbook.
  destruct (dtruthy sl && bool_decide (pn ∈ dom (default ∅ sl))) eqn:E;
    [|eauto].
  apply andb_prop in E as [_ Hin]. apply bool_decide_eq_true in Hin.
  apply elem_of_dom in Hin as [rule Hrule].
  unfold _skip_hosts. rewrite Hrule.
  destruct (hosts rule) as [h|]; [|simpl; eauto].
  destruct (String.eqb h "ALL"); simpl; [eauto|].
  match goal with |- context [truthy ?s] => destruct (truthy s); eauto end.
Qed.

(** A rule whose hosts are ['ALL'] or absent suppresses the playbook. *)
Lemma skip_all_not_run (p : Params) m rule playbook :
  skip_list p = Some m → m !! play_id playbook = Some rule →
  hosts rule = Some "ALL" ∨ hosts rule = None →
  runs p playbook = false.
Proof.
  intros Hsl Hm Hhosts. unfold runs, _skip_playbook. rewrite Hsl. simpl.
  assert (m ≠ ∅) as Hne by (intros ->; by rewrite lookup_empty in Hm).
  rewrite (bool_decide_eq_true_2 _ Hne).
  assert (play_id playbook ∈ dom m) as Hdom by (apply elem_of_dom; eauto).
  rewrite (bool_decide_eq_true_2 _ Hdom). simpl.
  unfold _skip_hosts. rewrite Hm.
  by destruct Hhosts as [-> | ->].
Qed.

(** The loop never raises. It calls the engine for the playbooks that are
    not suppressed, in order, appends the record of each call, and reads
    no log. *)
Lemma run_playbooks_spec dir (p : Params) pbs :
  ∀ results st, ∃ evs w',
    run_playbooks dir p pbs results st
      = (inr (results ++ omap record_of_event evs),
         mkSt w' (trace st ++ evs))
    ∧ omap engine_playbook evs = List.filter (runs p) pbs
    ∧ omap created_uuid evs = map UUID (omap record_of_event evs)
    ∧ Forall (λ ev, is_get_results ev = false) evs.
Proof.
  induction pbs as [|playbook rest IH]; intros results st.
  - exists [], (world st). simpl. rewrite !app_nil_r. destruct st; auto.
  - destruct (skip_playbook_returns (skip_list p) (play_id playbook)
                                    (limit_hosts p)) as [[_play _hosts] Hr].
    assert (runs p playbook = otruthy _play) as Hruns
      by (unfold runs; by rewrite Hr).
    cbn [run_playbooks List.filter]. rewrite Hruns.
    unfold mbind, M_bind, bind, lift.
    change (basename (splitext playbook).1) with (play_id playbook).
    rewrite Hr. unfold ret.
    destruct (otruthy _play).
    + unfold call_create_artifacts_dir at 1.
      destruct (create_artifacts_dir (log_path p) (basename playbook)
                                     (world st)) as [[uuid adir] w1].
      unfold call_ansible_run at 1. cbn [world trace].
      match goal with |- context [ansible_run uuid ?a w1] =>
        set (args := a); destruct (ansible_run uuid args w1)
          as [[[pb rc] status] w2] end.
      match goal with |- context [run_playbooks dir p rest ?r ?s] =>
        destruct (IH r s) as (evs & w' & Hrun & Hpb & Huuid & Hlog) end.
      exists (EvCreateArtifactsDir (log_path p) (basename playbook) (uuid, adir)
              :: EvAnsibleRun uuid args (pb, rc, status) :: evs), w'.
      rewrite Hrun. cbn [trace omap list_omap record_of_event engine_playbook
                         created_uuid map UUID].
      rewrite <- !app_assoc. cbn [app].
      repeat split; try done.
      * f_equal. exact Hpb.
      * f_equal. exact Huuid.
      * by repeat constructor.
    + destruct (IH results st) as (evs & w' & Hrun & Hrest).
      exists evs, w'. by rewrite Hrun.
Qed.

(** A selection error is raised before any call; after a selection the
    run returns the records or the rows of the logs of the runs. *)
Lemma run_validations_raises self (p : Params) st e :
  resolve_playbooks (search_dir self p) p = inl e →
  run_validations self p st = (inl e, st).
Proof.
  intros Hsel. unfold run_validations, mbind, M_bind, bind, lift.
  fold (search_dir self p). by rewrite Hsel.
Qed.

Lemma run_validations_resolved self (p : Params) st pbs :
  resolve_playbooks (search_dir self p) p = inr pbs →
  ∃ evs w1,
    omap engine_playbook evs = List.filter (runs p) pbs
    ∧ omap created_uuid evs = map UUID (omap record_of_event evs)
    ∧ Forall (λ ev, is_get_results ev = false) evs
    ∧ run_validations self p st =
        if run_async p then
          (inr (RunRecords (omap record_of_event evs)),
           mkSt w1 (trace st ++ evs))
        else
          let uuid := map UUID (omap record_of_event evs) in
          (inr (LogResults (get_results uuid w1).1),
           mkSt (get_results uuid w1).2
                (trace st ++ evs ++ [EvGetResults uuid (get_results uuid w1).1])).
Proof.
  intros Hsel.
  destruct (run_playbooks_spec (search_dir self p) p pbs [] st)
    as (evs & w1 & Hrun & Hpb & Huuid & Hlog).
  exists evs, w1. repeat split; try done.
  unfold run_validations, mbind, M_bind, bind, lift.
  fold (search_dir self p). rewrite Hsel. unfold ret at 1.
  rewrite Hrun. cbn [app].
  destruct (run_async p); [done|].
  unfold call_get_results. cbn [world trace].
  destruct (get_results _ w1) as [rows w2]. cbn [fst snd].
  by rewrite <- app_assoc.
Qed.

End Orchestrator.

(** ** Skipped units, engine failures and the two return modes *)

Section RunClaims.

Context `{Collaborators}.






(** C6. Without a list of names and without a list of groups,
    [run_validations] raises "No validations found" and calls nothing. *)
Theorem no_selection_raises self (p : Params) st :
  ltruthy (group p) = false → ltruthy (validation_name p) = false →
  run_validations self p st
    = (inl (RuntimeError "No validations found"), st).
Proof.
  intros Hg Hn. apply run_validations_raises.
  unfold resolve_playbooks. by rewrite Hg, Hn.
Qed.

(** The loop does not read the requested names. *)
Lemma run_playbooks_names dir (p : Params) names pbs :
  ∀ results st,
    run_playbooks dir (with_validation_name names p) pbs results st
    = run_playbooks dir p pbs results st.
Proof.
  induction pbs as [|playbook rest IH]; intros results st; [done|].
  cbn [run_playbooks with_validation_name skip_list limit_hosts log_path
       base_dir inventory output_callback quiet extra_vars extra_env_vars
       ansible_cfg run_async python_interpreter].
  unfold mbind, M_bind, bind.
  destruct (lift _ st) as [[e|[_play _hosts]] st1]; [done|].
  destruct (otruthy _play); [|apply IH].
  destruct (call_create_artifacts_dir _ _ st1) as [[e|[uuid adir]] st2];
    [done|].
  destruct (call_ansible_run _ _ st2) as [[e|[[pb rc] status]] st3]; [done|].
  apply IH.
Qed.

(** C3 (as amended). When a list of groups is supplied, the playbooks are
    those of the validations that [parse_all_validations_on_disk] returns
    for the groups, and the requested names play no part: the run is the
    same for any other list of names. *)
Theorem group_selection_ignores_names self (p : Params) st names :
  ltruthy (group p) = true →
  resolve_playbooks (search_dir self p) p
    = match parse_all_validations_on_disk (search_dir self p)
                                          (default [] (group p)) with
      | inl e => inl e
      | inr validations => inr (map (λ val, id val +:+ ".yaml") validations)
      end
  ∧ run_validations self (with_validation_name names p) st
    = run_validations self p st.
Proof.
  intros Hg. split.
  - unfold resolve_playbooks. by rewrite Hg.
  - unfold run_validations, mbind, M_bind, bind.
    cbn [with_validation_name validations_dir run_async].
    fold (search_dir self p).
    assert (resolve_playbooks (search_dir self p)
              (with_validation_name names p)
            = resolve_playbooks (search_dir self p) p) as ->.
    { unfold resolve_playbooks. cbn [with_validation_name group].
      by rewrite Hg. }
    destruct (lift _ st) as [[e|pbs] st1]; [done|].
    by rewrite run_playbooks_names.
Qed.

End RunClaims.

(** ** The selection by names *)

Section Selection.

Context `{Collaborators}.

Lemma set_difference_spec names stems x :
  In x (set_difference names stems) ↔ In x names ∧ ¬ In x stems.
Proof.
  unfold set_difference.
  rewrite <- !list_elem_of_In, elem_of_elements, elem_of_difference,
          !elem_of_list_to_set.
  done.
Qed.

Lemma set_difference_nodup names stems :
  List.NoDup (set_difference names stems).
Proof. apply NoDup_ListNoDup, NoDup_elements. Qed.

(** With names and no group, the selection raises exactly when no playbook
    is resolved or the number of playbooks is not the number of names; the
    message lists the set difference and names the directory. *)
Lemma resolve_by_names dir (p : Params) names :
  ltruthy (group p) = false → validation_name p = Some names → names ≠ [] →
  let playbooks := get_validations_playbook dir names (group p) in
  resolve_playbooks dir p =
    if bool_decide (playbooks = [] ∨ length names ≠ length playbooks)
    then inl (RuntimeError
                (not_found_msg (set_difference names (map play_id playbooks))
                               dir))
    else inr playbooks.
Proof.
  intros Hg Hn Hne playbooks. unfold resolve_playbooks.
  rewrite Hg, Hn. destruct names as [|n names]; [done|].
  unfold convert_data, default, from_option, Datatypes.id.
  cbn [ltruthy]. fold playbooks.
  clearbody playbooks.
  destruct (Nat.eqb_spec (length (n :: names)) (length playbooks)) as [E|E];
    destruct (decide (playbooks = [])) as [Hpb|Hpb];
    rewrite ?(bool_decide_eq_true_2 _ Hpb), ?(bool_decide_eq_false_2 _ Hpb);
    cbn [orb negb].
  - rewrite bool_decide_eq_true_2; [done|]. by left.
  - rewrite bool_decide_eq_false_2; [done|]. by intros [?|?].
  - rewrite bool_decide_eq_true_2; [done|]. by left.
  - rewrite bool_decide_eq_true_2; [done|]. by right.
Qed.

(** X9. When the resolved playbooks are playbooks of requested names, one for
    each name at most, a requested name without a playbook makes the
    selection raise. *)
Lemma unresolved_name_raises dir (p : Params) names n :
  ltruthy (group p) = false → validation_name p = Some names →
  let playbooks := get_validations_playbook dir names (group p) in
  (∀ x, In x (map play_id playbooks) → In x names) →
  List.NoDup (map play_id playbooks) →
  In n names → ¬ In n (map play_id playbooks) →
  resolve_playbooks dir p =
    inl (RuntimeError
           (not_found_msg (set_difference names (map play_id playbooks)) dir)).
Proof.
  intros Hg Hn playbooks Hsub Hnd Hin Hnot.
  assert (names ≠ []) as Hne by (by destruct names).
  rewrite (resolve_by_names dir p names Hg Hn Hne). fold playbooks.
  rewrite bool_decide_eq_true_2; [done|]. right.
  assert (n :: map play_id playbooks ⊆+ names) as Hle.
  { apply NoDup_submseteq.
    - constructor; [by rewrite list_elem_of_In | by apply NoDup_ListNoDup].
    - intros x [->|Hx]%elem_of_cons; apply list_elem_of_In; auto.
      by apply Hsub, list_elem_of_In. }
  apply submseteq_length in Hle. simpl in Hle.
  rewrite length_map in Hle. lia.
Qed.

End Selection.

Section SelectionClaim.

Context `{Collaborators}.

(** Distinct names among which one is missing are fewer than the names
    they are taken from. *)
Lemma missing_name_fewer (stems names : list string) n :
  (∀ x, In x stems → In x names) → List.NoDup stems →
  In n names → ¬ In n stems →
  (length stems < length names)%nat.
Proof.
  intros Hsub Hnd Hin Hnot.
  assert (n :: stems ⊆+ names) as Hle.
  { apply NoDup_submseteq.
    - constructor; [by rewrite list_elem_of_In | by apply NoDup_ListNoDup].
    - intros x [->|Hx]%elem_of_cons; apply list_elem_of_In; auto.
      by apply Hsub, list_elem_of_In. }
  apply submseteq_length in Hle. simpl in Hle. lia.
Qed.

(** C5 (as amended). With a non-empty list of names and no group:
    when fewer playbooks are resolved than names are requested,
    [run_validations] raises, before any call, the error whose message
    lists exactly the requested names that are the name of no resolved
    playbook, each once, and names the directory searched. It raises
    if and only if no playbook is resolved or the playbooks are not as
    many as the names. In particular it raises whenever a requested
    name has no playbook, provided that every resolved playbook is the
    playbook of a requested name and no two have the same name. *)
Theorem names_selection_error self (p : Params) st names :
  ltruthy (group p) = false → validation_name p = Some names → names ≠ [] →
  let dir := search_dir self p in
  let playbooks := get_validations_playbook dir names (group p) in
  let unknown := set_difference names (map play_id playbooks) in
  ((length playbooks < length names)%nat →
   run_validations self p st
   = (inl (RuntimeError (not_found_msg unknown dir)), st))
  ∧ (List.NoDup unknown
     ∧ ∀ x, In x unknown ↔ In x names ∧ ¬ In x (map play_id playbooks))
  ∧ ((∃ e st', run_validations self p st = (inl e, st'))
     ↔ playbooks = [] ∨ length names ≠ length playbooks)
  ∧ ((∀ x, In x (map play_id playbooks) → In x names) →
     List.NoDup (map play_id playbooks) →
     (∃ n, In n names ∧ ¬ In n (map play_id playbooks)) →
     run_validations self p st
     = (inl (RuntimeError (not_found_msg unknown dir)), st)).
Proof.
  intros Hg Hn Hne dir playbooks unknown.
  pose proof (resolve_by_names dir p names Hg Hn Hne) as Hsel.
  cbv zeta in Hsel. fold playbooks in Hsel. fold unknown in Hsel.
  assert (length names ≠ length playbooks →
          run_validations self p st
          = (inl (RuntimeError (not_found_msg unknown dir)), st)) as Hraise.
  { intros Hlen. apply run_validations_raises. fold dir.
    rewrite Hsel. rewrite bool_decide_eq_true_2; [done|]. by right. }
  split; [intros Hlt; apply Hraise; lia|].
  split; [split; [apply set_difference_nodup | apply set_difference_spec]|].
  split.
  - destruct (decide (playbooks = [] ∨ length names ≠ length playbooks))
      as [Hbad|Hgood].
    + rewrite bool_decide_eq_true_2 in Hsel by done.
      rewrite (run_validations_raises self p st _ Hsel).
      split; eauto.
    + rewrite bool_decide_eq_false_2 in Hsel by done.
      destruct (run_validations_resolved self p st playbooks Hsel)
        as (evs & w1 & _ & _ & _ & Hrun).
      rewrite Hrun.
      split; [intros (e & st' & He)|done]; by destruct (run_async p).
  - intros Hsub Hnd (n & Hin & Hnot). apply Hraise.
    pose proof (missing_name_fewer _ _ n Hsub Hnd Hin Hnot) as Hlt.
    rewrite length_map in Hlt. lia.
Qed.

End SelectionClaim.

(** ** The statements on a catalog of two units *)

Section OnTheCatalog.

Import Catalog.


(** On that request only [bar] is run. *)
Example skip_all_run :
  (run_validations (H := sample) "/tmp/foo"
     (request (Some ["foo"; "bar"]) None (Some "cloud1") true
              (skip_foo (Some "ALL"))) initial).1
  = inr (RunRecords [ {| playbook := "bar.yaml"; rc_code := 0;
                         status := "successful"; validations := "bar";
                         UUID := "uuid-0" |} ]).
Proof. vm_compute. reflexivity. Qed.

(** C3 (as stated) fails: [bar] matches a requested name, so the union
    selects it, yet with the group [prep] also supplied only [foo], the
    unit of that group, is resolved and run. *)
Lemma union_selection_counterexample :
  In (mkUnit "/tmp/foo/bar.yaml" ["post"]) two_units
  ∧ selected_by_union ["bar"] ["prep"] (mkUnit "/tmp/foo/bar.yaml" ["post"])
    = true
  ∧ resolve_playbooks (H := sample) "/tmp/foo"
      (request (Some ["bar"]) (Some ["prep"]) None true None)
    = inr ["foo.yaml"]
  ∧ ¬ In (unit_id (mkUnit "/tmp/foo/bar.yaml" ["post"]))
         (map play_id ["foo.yaml"])
  ∧ (run_validations (H := sample) "/tmp/foo"
       (request (Some ["bar"]) (Some ["prep"]) None true None) initial).1
    = inr (RunRecords [ {| playbook := "foo.yaml"; rc_code := 2;
                           status := "failed"; validations := "foo";
                           UUID := "uuid-0" |} ]).
Proof.
  split; [right; left; reflexivity|].
  split; [reflexivity|]. split; [reflexivity|].
  split; [|vm_compute; reflexivity].
  vm_compute. intros [Heq | []]. discriminate.
Qed.

Lemma group_selection_ignores_names_witness :
  run_validations (H := sample) "/tmp/foo"
    (with_validation_name None
       (request (Some ["bar"]) (Some ["prep"]) None true None)) initial
  = run_validations (H := sample) "/tmp/foo"
      (request (Some ["bar"]) (Some ["prep"]) None true None) initial.
Proof.
  exact (proj2 (group_selection_ignores_names (H := sample) "/tmp/foo"
                  (request (Some ["bar"]) (Some ["prep"]) None true None)
                  initial None eq_refl)).
Defined.


(** Without [run_async] too, the engine answers 2 for [foo], the loop
    records the answer and runs [bar] next. *)
Example failed_then_next_sync :
  (run_playbooks (H := sample) "/tmp/foo"
     (request (Some ["foo"; "bar"]) None None false None)
     ["/tmp/foo/foo.yaml"; "/tmp/foo/bar.yaml"] [] initial).1
  = inr [ {| playbook := "foo.yaml"; rc_code := 2;
             status := "failed"; validations := "foo";
             UUID := "uuid-0" |};
          {| playbook := "bar.yaml"; rc_code := 0;
             status := "successful"; validations := "bar";
             UUID := "uuid-1" |} ].
Proof. vm_compute. reflexivity. Qed.

(** The engine answers 2 for [foo]: the answer is recorded and [bar] is
    run next. *)
Example failed_then_next :
  (run_validations (H := sample) "/tmp/foo"
     (request (Some ["foo"; "bar"]) None None true None) initial).1
  = inr (RunRecords [ {| playbook := "foo.yaml"; rc_code := 2;
                         status := "failed"; validations := "foo";
                         UUID := "uuid-0" |};
                      {| playbook := "bar.yaml"; rc_code := 0;
                         status := "successful"; validations := "bar";
                         UUID := "uuid-1" |} ]).
Proof. vm_compute. reflexivity. Qed.

(** C5 (as stated) fails: the names ['foo', 'foo'] are both names of a
    unit of the catalog, so no requested name is without a unit, yet the
    catalog resolves them to the one playbook of [foo], fewer than the
    names, and [run_validations] raises
    "Validation [] not found in /tmp/foo.". *)
Lemma duplicate_names_raise_not_found :
  (∀ n, In n ["foo"; "foo"] →
        In n (map play_id (get_validations_playbook (Collaborators := sample)
                             "/tmp/foo" ["foo"; "foo"] None)))
  ∧ run_validations (H := sample) "/tmp/foo"
      (request (Some ["foo"; "foo"]) None None false None) initial
    = (inl (RuntimeError "Validation [] not found in /tmp/foo."), initial).
Proof.
  split; [|vm_compute; reflexivity].
  intros n [<- | [<- | []]]; vm_compute; auto.
Qed.

Lemma names_selection_error_witness :
  run_validations (H := sample) "/tmp/foo"
    (request (Some ["foo"; "baz"]) None None false None) initial
  = (inl (RuntimeError
            (not_found_msg
               (set_difference ["foo"; "baz"]
                  (map play_id
                     (get_playbooks two_units "/tmp/foo" ["foo"; "baz"] None)))
               "/tmp/foo")),
     initial).
Proof.
  refine (proj1 (names_selection_error (H := sample) "/tmp/foo"
                   (request (Some ["foo"; "baz"]) None None false None)
                   initial ["foo"; "baz"] eq_refl eq_refl _) _).
  - discriminate.
  - vm_compute. lia.
Defined.

Lemma no_selection_raises_witness :
  run_validations (H := sample) "/tmp/foo" default_params initial
  = (inl (RuntimeError "No validations found"), initial).
Proof.
  exact (no_selection_raises (H := sample) "/tmp/foo" default_params initial
           eq_refl eq_refl).
Defined.


End OnTheCatalog.

(** ** The status query *)

Section StatusClaims.

Context `{LogStore}.

Implicit Types (task : Task Payload) (values : list StatusRow).

(** A key of the dictionary is found. *)
Lemma getitem_key {V} (d : list (string * V)) k :
  In k (map fst d) → ∃ v, getitem d k = inr v.
Proof.
  induction d as [|[k' v'] d IH]; simpl; [done|].
  intros [-> | Hin].
  - rewrite String.eqb_refl. eauto.
  - destruct (String.eqb k' k); eauto.
Qed.

(** With distinct keys, an item is what its key is bound to. *)
Lemma getitem_item {V} (d : list (string * V)) k v :
  List.NoDup (map fst d) → In (k, v) d → getitem d k = inr v.
Proof.
  induction d as [|[k' v'] d IH]; simpl; [done|].
  intros Hnd [[= -> ->] | Hin].
  - by rewrite String.eqb_refl.
  - inversion Hnd as [|? ? Hnotin Hnd']; subst.
    destruct (String.eqb_spec k' k) as [->|_]; [|by apply IH].
    exfalso. apply Hnotin. apply in_map_iff. by exists (k, v).
Qed.

Lemma append_hosts_returns task keys :
  ∀ values, (∀ k, In k keys → In k (map fst (task_hosts task))) →
  ∃ values', append_hosts task keys values = inr values'.
Proof.
  induction keys as [|k keys IH]; intros values Hkeys; simpl; [eauto|].
  destruct (getitem_key (task_hosts task) k) as [v ->];
    [apply Hkeys; by left|].
  apply IH. intros k' Hk'. apply Hkeys. by right.
Qed.

Lemma append_tasks_returns status tasks :
  ∀ values, ∃ values', append_tasks status tasks values = inr values'.
Proof.
  induction tasks as [|task tasks IH]; intros values; simpl; [eauto|].
  destruct (String.eqb (task_status task) status); [|apply IH].
  destruct (append_hosts_returns task (map fst (task_hosts task)) values)
    as [values' ->]; [done|]. apply IH.
Qed.

Lemma append_logs_returns status logs :
  ∀ values, ∃ values', append_logs status logs values = inr values'.
Proof.
  induction logs as [|log logs IH]; intros values; simpl; [eauto|].
  destruct (is_valid_format log); [|apply IH].
  destruct (append_tasks_returns status (get_tasks_data log) values)
    as [values' ->]. apply IH.
Qed.

(** The rows appended for the hosts, the tasks and the logs. *)
Lemma append_hosts_items task items :
  ∀ values,
    (∀ k v, In (k, v) items → getitem (task_hosts task) k = inr v) →
    append_hosts task (map fst items) values
    = inr (values ++
           map (λ '(host, data),
                  (task_name task, host, task_status task, data)) items).
Proof.
  induction items as [|[k v] items IH]; intros values Hitems; simpl.
  - by rewrite app_nil_r.
  - rewrite (Hitems k v) by (by left).
    rewrite IH by (intros k' v' Hin; apply Hitems; by right).
    by rewrite <- app_assoc.
Qed.

Lemma append_tasks_rows status tasks :
  ∀ values, distinct_hosts tasks →
    append_tasks status tasks values
    = inr (values ++
           flat_map task_rows
             (List.filter (λ task, String.eqb (task_status task) status)
                          tasks)).
Proof.
  induction tasks as [|task tasks IH]; intros values Hd; simpl.
  - by rewrite app_nil_r.
  - assert (distinct_hosts tasks) as Hd'
      by (intros t Ht; apply Hd; by right).
    destruct (String.eqb (task_status task) status); [|by apply IH].
    rewrite append_hosts_items.
    + rewrite IH by done. simpl. by rewrite <- app_assoc.
    + intros k v Hin. apply getitem_item; [|done]. apply Hd. by left.
Qed.

Lemma append_logs_rows status logs :
  ∀ values,
    (∀ log, In log logs → is_valid_format log = true →
            distinct_hosts (get_tasks_data log)) →
    append_logs status logs values
    = inr (values ++ flat_map task_rows (matching_tasks status logs)).
Proof.
  induction logs as [|log logs IH]; intros values Hd; simpl.
  - by rewrite app_nil_r.
  - assert (∀ l, In l logs → is_valid_format l = true →
                 distinct_hosts (get_tasks_data l)) as Hd'
      by (intros l Hl; apply Hd; by right).
    destruct (is_valid_format log) eqn:Hvalid.
    + rewrite append_tasks_rows by (apply Hd; [by left | done]).
      rewrite IH by done. by rewrite flat_map_app, <- app_assoc.
    + simpl. by apply IH.
Qed.

(** C7 (as amended). [get_status] returns, for the logs of valid format,
    one row for each host of the [hosts] dictionary of each task whose
    status equals the filter, in the order of the logs, the tasks and the
    hosts: the name of the task, the host, the status and the payload of
    the host. A task with another status contributes no row, and every
    row carries the status asked for. *)
Theorem get_status_rows validation_id uuid status log_path logs :
  queried_logs validation_id uuid log_path = Some logs →
  (∀ log, In log logs → is_valid_format log = true →
          distinct_hosts (get_tasks_data log)) →
  get_status validation_id uuid status log_path
    = inr (["name"; "host"; "status"; "task_data"],
           flat_map task_rows (matching_tasks status logs))
  ∧ (∀ n h s d, In (n, h, s, d)
                   (flat_map task_rows (matching_tasks status logs)) →
                s = status).
Proof.
  intros Hq Hd. split.
  - unfold get_status. unfold queried_logs in Hq.
    destruct (otruthy validation_id).
    + injection Hq as <-. by rewrite append_logs_rows.
    + destruct (otruthy uuid); [|done].
      injection Hq as <-. by rewrite append_logs_rows.
  - intros n h s d (task & Htask & Hrow)%in_flat_map.
    unfold matching_tasks in Htask.
    apply in_flat_map in Htask as (log & _ & Htask).
    destruct (is_valid_format log); [|done].
    apply filter_In in Htask as [_ Hst%String.eqb_eq].
    unfold task_rows in Hrow.
    apply in_map_iff in Hrow as ([h' d'] & [= _ _ <- _] & _). done.
Qed.

(** C9. [get_status] raises if and only if neither [validation_id] nor
    [uuid] is given (each is [None] or empty); it then raises the error
    that asks for one of them, and it raises nothing else. *)
Theorem get_status_raises_iff validation_id uuid status log_path :
  ((∃ e, get_status validation_id uuid status log_path = inl e)
   ↔ otruthy validation_id = false ∧ otruthy uuid = false)
  ∧ (∀ e, get_status validation_id uuid status log_path = inl e →
          e = RuntimeError "You need to provide a validation_id or a uuid").
Proof.
  unfold get_status.
  destruct (otruthy validation_id); [|destruct (otruthy uuid)].
  - destruct (append_logs_returns status
                (get_logfile_by_validation log_path (default "" validation_id))
                []) as [values ->].
    split; [split|]; [intros [e He]|intros [? _]|intros e He]; done.
  - destruct (append_logs_returns status
                (get_logfile_by_uuid log_path (default "" uuid)) [])
      as [values ->].
    split; [split|]; [intros [e He]|intros [_ ?]|intros e He]; done.
  - split; [split|]; [done|eauto|].
    intros e [= <-]. done.
Qed.

End StatusClaims.

Section OnTheLogStore.

Import Catalog.

(** C7 (as stated) fails: a log of valid format with one task whose status
    is the filter and whose [hosts] dictionary has two hosts gives two
    rows, not one row for the task. *)
Lemma one_row_per_task_counterexample :
  get_status (H := log_store [mkTask "t" "FAILED" [("h1", "p1"); ("h2", "p2")]])
             (Some "foo") None "FAILED" "/var/log"
  = inr (["name"; "host"; "status"; "task_data"],
         [("t", "h1", "FAILED", "p1"); ("t", "h2", "FAILED", "p2")])
  ∧ length (matching_tasks
              (H := log_store [mkTask "t" "FAILED" [("h1", "p1"); ("h2", "p2")]])
              "FAILED" ["/var/log/foo.json"]) = 1%nat.
Proof. split; reflexivity. Qed.

Lemma get_status_rows_witness :
  get_status (H := log_store [mkTask "t" "FAILED" [("h1", "p1"); ("h2", "p2")];
                              mkTask "u" "PASSED" [("h1", "p3")]])
             (Some "foo") None "FAILED" "/var/log"
  = inr (["name"; "host"; "status"; "task_data"],
         [("t", "h1", "FAILED", "p1"); ("t", "h2", "FAILED", "p2")]).
Proof.
  refine (proj1 (get_status_rows
            (H := log_store [mkTask "t" "FAILED" [("h1", "p1"); ("h2", "p2")];
                             mkTask "u" "PASSED" [("h1", "p3")]])
            (Some "foo") None "FAILED" "/var/log" ["/var/log/foo.json"]
            eq_refl _)).
  intros log _ _ task [<- | [<- | []]]; simpl.
  - constructor; [|constructor; [|constructor]]; simpl.
    + intros [Heq | []]. discriminate Heq.
    + intros [].
  - constructor; [|constructor]. intros [].
Defined.

(** Called without arguments, [get_status] raises. *)
Example get_status_no_param :
  get_status (H := log_store []) None None "FAILED" "/var/log"
  = inl (RuntimeError "You need to provide a validation_id or a uuid").
Proof. reflexivity. Qed.

End OnTheLogStore.

(** * Further properties *)

(** ** What is skipped and what the engine is given *)

Section SkipFacts.

(** X1. Without a rule for the playbook, [_skip_playbook] returns the playbook
    and the user limit unchanged. *)
Theorem skip_playbook_no_rule sl pb (L : option string) :
  (∀ m, sl = Some m → m !! pb = None) →
  _skip_playbook sl pb L = inr (Some pb, L).
Proof.
  intros Hno. unfold _skip_playbook.
  destruct sl as [m|]; [|done]. simpl.
  rewrite (bool_decide_eq_false_2 (pb ∈ dom m)).
  - by rewrite andb_false_r.
  - rewrite elem_of_dom, (Hno m eq_refl). by intros [? ?].
Qed.

Lemma skip_playbook_no_rule_witness :
  _skip_playbook (Catalog.skip_foo (Some "ALL")) "bar" (Some "cloud1")
  = inr (Some "bar", Some "cloud1").
Proof.
  apply skip_playbook_no_rule.
  intros m [= <-]. vm_compute. reflexivity.
Defined.

Lemma join_bang_truthy h rest : truthy (join "," (("!" +:+ h) :: rest)) = true.
Proof. by destruct rest. Qed.

(** With a rule for a specific host the playbook is returned with the
    resolved limit. *)
Lemma skip_playbook_specific (m : gmap string SkipRule) pb rule h L :
  m !! pb = Some rule → hosts rule = Some h → h ≠ "ALL" →
  ∃ r, _skip_hosts m pb L = inr (Some r) ∧ truthy r = true
       ∧ _skip_playbook (Some m) pb L = inr (Some pb, Some r).
Proof.
  intros Hm Hh Hall.
  pose proof (skip_hosts_value m pb rule h L Hm Hh Hall) as Hval.
  eexists. split; [exact Hval|]. split; [apply join_bang_truthy|].
  unfold _skip_playbook. simpl.
  assert (m ≠ ∅) as Hne by (intros ->; by rewrite lookup_empty in Hm).
  rewrite (bool_decide_eq_true_2 _ Hne).
  assert (pb ∈ dom m) as Hdom by (apply elem_of_dom; eauto).
  rewrite (bool_decide_eq_true_2 _ Hdom). simpl.
  rewrite Hval. unfold otruthy. by rewrite join_bang_truthy.
Qed.

(** X2. A playbook is left out of the run exactly when its name is empty or
    its rule has hosts ['ALL'] or no hosts; a rule for a specific host,
    even the empty one, never leaves it out. *)
Theorem not_run_iff (p : Params) playbook :
  runs p playbook = false ↔
  play_id playbook = ""
  ∨ ∃ m rule, skip_list p = Some m ∧ m !! play_id playbook = Some rule
              ∧ (hosts rule = Some "ALL" ∨ hosts rule = None).
Proof.
  split.
  - intros Hruns.
    destruct (skip_list p) as [m|] eqn:Hsl.
    + destruct (m !! play_id playbook) as [rule|] eqn:Hm.
      * destruct (hosts rule) as [h|] eqn:Hh; [|right; eauto 6].
        destruct (decide (h = "ALL")) as [->|Hall]; [right; eauto 6|].
        destruct (skip_playbook_specific m (play_id playbook) rule h
                    (limit_hosts p) Hm Hh Hall) as (r & _ & _ & Hsp).
        unfold runs in Hruns. rewrite Hsl, Hsp in Hruns. simpl in Hruns.
        left. by destruct (play_id playbook).
      * unfold runs in Hruns. rewrite Hsl in Hruns.
        rewrite skip_playbook_no_rule in Hruns by (by intros ? [= <-]).
        simpl in Hruns. left. by destruct (play_id playbook).
    + unfold runs in Hruns. rewrite Hsl in Hruns. simpl in Hruns.
      left. by destruct (play_id playbook).
  - intros [Hempty | (m & rule & Hsl & Hm & Hhosts)].
    + unfold runs.
      destruct (skip_list p) as [m|] eqn:Hsl; [|simpl; by rewrite Hempty].
      destruct (m !! play_id playbook) as [rule|] eqn:Hm.
      * destruct (hosts rule) as [h|] eqn:Hh;
          [destruct (decide (h = "ALL")) as [->|Hall]|].
        -- fold (runs p playbook). rewrite <- Hsl.
           eapply skip_all_not_run; eauto.
        -- destruct (skip_playbook_specific m (play_id playbook) rule h
                       (limit_hosts p) Hm Hh Hall) as (r & _ & _ & ->).
           simpl. by rewrite Hempty.
        -- fold (runs p playbook). rewrite <- Hsl.
           eapply skip_all_not_run; eauto.
      * rewrite skip_playbook_no_rule by (by intros ? [= <-]).
        simpl. by rewrite Hempty.
    + eapply skip_all_not_run; eauto.
Qed.

End SkipFacts.

Section SkipComposition.

Lemma filter_twice {A} (f : A → bool) l :
  List.filter f (List.filter f l) = List.filter f l.
Proof.
  induction l as [|x l IH]; simpl; [done|].
  destruct (f x) eqn:E; simpl; [|done]. by rewrite E, IH.
Qed.

(** X4. Resolving again with the resolved limit as user limit changes
    nothing: the limit that [_skip_hosts] returns for a comma-free host is
    a fixed point of [_skip_hosts]. *)
Theorem skip_hosts_idempotent (m : gmap string SkipRule) pb rule h L r :
  m !! pb = Some rule → hosts rule = Some h → h ≠ "ALL" →
  has_char "," h = false →
  _skip_hosts m pb L = inr (Some r) →
  _skip_hosts m pb (Some r) = inr (Some r).
Proof.
  intros Hm Hh Hall Hfree Hr.
  rewrite (skip_hosts_value m pb rule h L Hm Hh Hall) in Hr.
  rewrite (skip_hosts_value m pb rule h (Some r) Hm Hh Hall).
  set (kept := if otruthy L
               then List.filter (λ t, negb (contains h t))
                                (split "," (default "" L))
               else []) in *.
  assert (join "," (("!" +:+ h) :: kept) = r) as Hr' by congruence.
  clear Hr. rename Hr' into Hr.
  assert (Forall (λ t, has_char "," t = false) kept) as Hkept.
  { unfold kept. destruct (otruthy L); [apply kept_tokens_free | constructor]. }
  assert (List.filter (λ t, negb (contains h t)) kept = kept) as Hfix.
  { unfold kept. destruct (otruthy L); [apply filter_twice | done]. }
  assert (otruthy (Some r) = true) as ->
    by (rewrite <- Hr; apply join_bang_truthy).
  assert (split "," r = ("!" +:+ h) :: kept) as Hsplit.
  { rewrite <- Hr. apply split_join; [done|].
    constructor; [by apply bang_free | done]. }
  unfold default, from_option, Datatypes.id. rewrite Hsplit.
  cbn [List.filter]. rewrite contains_bang. cbn [negb].
  by rewrite Hfix, Hr.
Qed.

Lemma skip_hosts_idempotent_witness :
  _skip_hosts {[ "fake" := mkSkipRule (Some "cloud1") None None ]} "fake"
              (Some "!cloud1,cloud,!cloud2")
  = inr (Some "!cloud1,cloud,!cloud2").
Proof.
  refine (skip_hosts_idempotent
            {[ "fake" := mkSkipRule (Some "cloud1") None None ]} "fake"
            (mkSkipRule (Some "cloud1") None None) "cloud1"
            (Some "cloud,cloud1,!cloud2") "!cloud1,cloud,!cloud2"
            _ _ _ _ _).
  - vm_compute. reflexivity.
  - reflexivity.
  - discriminate.
  - reflexivity.
  - vm_compute. reflexivity.
Defined.

End SkipComposition.

(** ** The run: calls, unused rules, empty selections *)

Section RunFacts.

Context `{Collaborators}.




(** The loop reads the skip rules of the selected playbooks only. *)
Lemma run_playbooks_no_rules dir (p : Params) pbs :
  (∀ pb m, In pb pbs → skip_list p = Some m → m !! play_id pb = None) →
  ∀ results st,
    run_playbooks dir (with_skip_list None p) pbs results st
    = run_playbooks dir p pbs results st.
Proof.
  induction pbs as [|playbook rest IH]; intros Hno results st; [done|].
  cbn [run_playbooks with_skip_list skip_list limit_hosts log_path
       base_dir inventory output_callback quiet extra_vars extra_env_vars
       ansible_cfg run_async python_interpreter].
  change (basename (splitext playbook).1) with (play_id playbook).
  rewrite (skip_playbook_no_rule (skip_list p) (play_id playbook))
    by (intros m Hm; eapply Hno; [by left | done]).
  rewrite (skip_playbook_no_rule None (play_id playbook)) by done.
  unfold mbind, M_bind, bind, lift, ret.
  assert (∀ pb m, In pb rest → skip_list p = Some m →
                  m !! play_id pb = None) as Hno'
    by (intros pb m Hin; apply Hno; by right).
  destruct (otruthy (Some (play_id playbook))); [|by apply IH].
  destruct (call_create_artifacts_dir _ _ st) as [[e|[uuid adir]] st2];
    [done|].
  destruct (call_ansible_run _ _ st2) as [[e|[[pb rc] status]] st3]; [done|].
  by apply IH.
Qed.

(** X6. Rules for validations that are not selected have no effect: when no
    resolved playbook has a rule, the run is the run without
    [skip_list]. *)
Theorem unused_skip_rules self (p : Params) st pbs :
  resolve_playbooks (search_dir self p) p = inr pbs →
  (∀ pb m, In pb pbs → skip_list p = Some m → m !! play_id pb = None) →
  run_validations self (with_skip_list None p) st = run_validations self p st.
Proof.
  intros Hsel Hno.
  unfold run_validations, mbind, M_bind, bind.
  cbn [with_skip_list validations_dir run_async].
  fold (search_dir self p).
  change (resolve_playbooks (search_dir self p) (with_skip_list None p))
    with (resolve_playbooks (search_dir self p) p).
  rewrite Hsel. unfold lift.
  destruct (ret pbs st) as [[e|pbs'] st1] eqn:Hret; [done|].
  injection Hret as <- <-.
  by rewrite run_playbooks_no_rules.
Qed.

End RunFacts.

Section RunFactsOnTheCatalog.


Lemma unused_skip_rules_witness :
  run_validations (H := Catalog.sample) "/tmp/foo"
    (with_skip_list None
       (Catalog.request (Some ["bar"]) None None true
                        (Catalog.skip_foo (Some "ALL"))))
    Catalog.initial
  = run_validations (H := Catalog.sample) "/tmp/foo"
      (Catalog.request (Some ["bar"]) None None true
                       (Catalog.skip_foo (Some "ALL")))
      Catalog.initial.
Proof.
  apply (unused_skip_rules (H := Catalog.sample) "/tmp/foo"
           (Catalog.request (Some ["bar"]) None None true
                            (Catalog.skip_foo (Some "ALL")))
           Catalog.initial ["/tmp/foo/bar.yaml"]).
  - vm_compute. reflexivity.
  - intros pb m [<- | []] [= <-]. vm_compute. reflexivity.
Defined.

End RunFactsOnTheCatalog.

(** ** Selections and records *)

Section SelectionFacts.

Context `{Collaborators}.

(** X7. A group without validations is no error: the run returns without an
    engine call, with no record or with the rows read for no
    identifier. *)
Theorem empty_group_returns self (p : Params) st :
  ltruthy (group p) = true →
  parse_all_validations_on_disk (search_dir self p) (default [] (group p))
    = inr [] →
  run_validations self p st =
    if run_async p then (inr (RunRecords []), st)
    else (inr (LogResults (get_results [] (world st)).1),
          mkSt (get_results [] (world st)).2
               (trace st ++ [EvGetResults [] (get_results [] (world st)).1])).
Proof.
  intros Hg Hparse.
  unfold run_validations, mbind, M_bind, bind, lift.
  fold (search_dir self p). unfold resolve_playbooks.
  rewrite Hg, Hparse. cbn [map]. unfold ret at 1.
  change (run_playbooks (search_dir self p) p [] [] st) with (inr [] : Exn + list RunRecord, st).
  cbv iota beta.
  destruct (run_async p); [done|].
  unfold call_get_results. cbn [map].
  by destruct (get_results [] (world st)).
Qed.

(** X8. With names and no group, [run_validations] raises exactly when no
    playbook is resolved or the playbooks are not as many as the names.
    It then calls nothing, and its message lists, without repetition,
    the names that are the name of no resolved playbook, and ends with
    the directory searched. *)
Theorem names_selection_raises_iff self (p : Params) st names :
  ltruthy (group p) = false → validation_name p = Some names → names ≠ [] →
  let playbooks :=
    get_validations_playbook (search_dir self p) names (group p) in
  ((∃ e st', run_validations self p st = (inl e, st'))
   ↔ playbooks = [] ∨ length names ≠ length playbooks)
  ∧ (∀ e st', run_validations self p st = (inl e, st') →
       st' = st
       ∧ ∃ unknown,
           e = RuntimeError (not_found_msg unknown (search_dir self p))
           ∧ List.NoDup unknown
           ∧ ∀ x, In x unknown ↔ In x names ∧ ¬ In x (map play_id playbooks)).
Proof.
  intros Hg Hn Hne playbooks.
  pose proof (resolve_by_names (search_dir self p) p names Hg Hn Hne) as Hsel.
  cbv zeta in Hsel. fold playbooks in Hsel.
  destruct (decide (playbooks = [] ∨ length names ≠ length playbooks))
    as [Hbad|Hgood].
  - rewrite bool_decide_eq_true_2 in Hsel by done.
    rewrite (run_validations_raises self p st _ Hsel).
    split; [split; eauto|].
    intros e st' [= <- <-]. split; [done|].
    eexists. split; [reflexivity|].
    split; [apply set_difference_nodup | apply set_difference_spec].
  - rewrite bool_decide_eq_false_2 in Hsel by done.
    destruct (run_validations_resolved self p st playbooks Hsel)
      as (evs & w1 & _ & _ & _ & Hrun).
    rewrite Hrun.
    split; [split; [intros (e & st' & He)|done]|intros e st' He];
      by destruct (run_async p).
Qed.

Lemma first_piece c s :
  has_char c (hd "" (split c s)) = false
  ∧ (s = hd "" (split c s)
     ∨ ∃ rest, s = hd "" (split c s) +:+ String c rest).
Proof.
  induction s as [|a s [IHfree IHs]]; simpl; [auto|].
  destruct (Ascii.eqb_spec a c) as [->|Hac].
  - simpl. split; [done|]. right. by exists s.
  - pose proof (split_nonempty c s) as Hne.
    destruct (split c s) as [|t ts]; [done|]. simpl in *.
    apply Ascii.eqb_neq in Hac. rewrite Hac. split; [done|].
    destruct IHs as [->|[rest ->]]; [by left|].
    right. by exists rest.
Qed.

(** X10. The [validations] field of a run record is the name that the engine
    returned, up to its first dot: it has no dot, and the name is either
    that text or that text, a dot and a rest. *)
Theorem validations_is_name_before_dot self (p : Params) st results :
  (run_validations self p st).1 = inr (RunRecords results) →
  ∀ r, In r results →
    has_char "." (validations r) = false
    ∧ (playbook r = validations r
       ∨ ∃ rest, playbook r = validations r +:+ "." +:+ rest).
Proof.
  intros Hrun r Hin.
  destruct (resolve_playbooks (search_dir self p) p) as [e|pbs] eqn:Hsel.
  { by rewrite (run_validations_raises self p st e Hsel) in Hrun. }
  destruct (run_validations_resolved self p st pbs Hsel)
    as (evs & w1 & _ & _ & _ & Heq).
  rewrite Heq in Hrun. destruct (run_async p); [|done].
  injection Hrun as <-.
  apply list_elem_of_In, list_elem_of_omap in Hin as (ev & _ & Hev).
  destruct ev as [| uuid args [[pb rc] status] |]; [done| |done].
  injection Hev as <-. cbn [validations playbook].
  apply first_piece.
Qed.

End SelectionFacts.

Section SelectionFactsOnTheCatalog.

Lemma empty_group_returns_witness :
  run_validations (H := Catalog.sample) "/tmp/foo"
    (Catalog.request None (Some ["post-upgrade"]) None true None)
    Catalog.initial
  = (inr (RunRecords []), Catalog.initial).
Proof.
  exact (empty_group_returns (H := Catalog.sample) "/tmp/foo"
           (Catalog.request None (Some ["post-upgrade"]) None true None)
           Catalog.initial eq_refl eq_refl).
Defined.

Lemma names_selection_raises_iff_witness :
  (∃ e st', run_validations (H := Catalog.sample) "/tmp/foo"
              (Catalog.request (Some ["foo"; "baz"]) None None true None)
              Catalog.initial = (inl e, st'))
  ↔ Catalog.get_playbooks Catalog.two_units "/tmp/foo" ["foo"; "baz"] None = []
    ∨ length ["foo"; "baz"]
      ≠ length (Catalog.get_playbooks Catalog.two_units "/tmp/foo"
                  ["foo"; "baz"] None).
Proof.
  refine (proj1 (names_selection_raises_iff (H := Catalog.sample) "/tmp/foo"
                   (Catalog.request (Some ["foo"; "baz"]) None None true None)
                   Catalog.initial ["foo"; "baz"] eq_refl eq_refl _)).
  discriminate.
Defined.

Lemma unresolved_name_raises_witness :
  resolve_playbooks (H := Catalog.sample) "/tmp/foo"
    (Catalog.request (Some ["foo"; "baz"]) None None true None)
  = inl (RuntimeError
           (not_found_msg
              (set_difference ["foo"; "baz"]
                 (map play_id
                    (Catalog.get_playbooks Catalog.two_units "/tmp/foo"
                       ["foo"; "baz"] None)))
              "/tmp/foo")).
Proof.
  refine (unresolved_name_raises (H := Catalog.sample) "/tmp/foo"
            (Catalog.request (Some ["foo"; "baz"]) None None true None)
            ["foo"; "baz"] "baz" eq_refl eq_refl _ _ _ _).
  - intros x [<- | []]. left. vm_compute. reflexivity.
  - constructor; [intros [] | constructor].
  - right. left. reflexivity.
  - intros [Heq | []]. vm_compute in Heq. discriminate Heq.
Defined.

(** The message of that error. *)
Example unresolved_name_message :
  (run_validations (H := Catalog.sample) "/tmp/foo"
     (Catalog.request (Some ["foo"; "baz"]) None None true None)
     Catalog.initial).1
  = inl (RuntimeError "Validation ['baz'] not found in /tmp/foo.").
Proof. vm_compute. reflexivity. Qed.

Lemma validations_is_name_before_dot_witness :
  has_char "."
    (validations {| playbook := "foo.yaml"; rc_code := 2; status := "failed";
                    validations := "foo"; UUID := "uuid-0" |}) = false.
Proof.
  refine (proj1 (validations_is_name_before_dot (H := Catalog.sample)
                   "/tmp/foo"
                   (Catalog.request (Some ["foo"]) None None true None)
                   Catalog.initial
                   [ {| playbook := "foo.yaml"; rc_code := 2;
                        status := "failed"; validations := "foo";
                        UUID := "uuid-0" |} ] _
                   {| playbook := "foo.yaml"; rc_code := 2;
                      status := "failed"; validations := "foo";
                      UUID := "uuid-0" |} _)).
  - vm_compute. reflexivity.
  - left. reflexivity.
Defined.

End SelectionFactsOnTheCatalog.

(** ** Paths: the identifier of a validation *)

Section PathFacts.

Local Open Scope Z_scope.

Let len (s : string) : Z := Z.of_nat (String.length s).

Lemma rfind_from_spec c s : ∀ i acc,
  rfind_from c s i acc = if has_char c s then i + rfind c s else acc.
Proof.
  unfold rfind.
  induction s as [|a s IH]; intros i acc; simpl; [done|].
  rewrite (IH (i + 1)), (IH (0 + 1)).
  destruct (Ascii.eqb a c), (has_char c s); simpl; lia.
Qed.

Lemma rfind_bounds c s :
  -1 ≤ rfind c s < len s ∧ (has_char c s = true → 0 ≤ rfind c s).
Proof.
  unfold rfind, len.
  induction s as [|a s [IH1 IH2]]; simpl String.length; simpl has_char;
    simpl rfind_from.
  - split; [lia | done].
  - rewrite rfind_from_spec. unfold rfind.
    destruct (has_char c s) eqn:Hs.
    + specialize (IH2 eq_refl). rewrite orb_true_r. lia.
    + rewrite orb_false_r. destruct (Ascii.eqb a c); split; try done; lia.
Qed.

Lemma rfind_app c a b :
  rfind c (a +:+ b) = if has_char c b then len a + rfind c b else rfind c a.
Proof.
  unfold rfind at 1 3.
  assert (∀ i acc, rfind_from c (a +:+ b) i acc
                   = rfind_from c b (i + len a) (rfind_from c a i acc)) as Happ.
  { unfold len. induction a as [|x a IH]; intros i acc.
    - simpl. f_equal. lia.
    - change (String x a +:+ b) with (String x (a +:+ b)).
      simpl rfind_from. rewrite IH. simpl String.length. f_equal. lia. }
  rewrite Happ, rfind_from_spec. by rewrite Z.add_0_l.
Qed.

Lemma drop_app_length a b n :
  drop (String.length a + n) (a +:+ b) = drop n b.
Proof.
  induction a as [|x a IH]; [done|].
  change (String x a +:+ b) with (String x (a +:+ b)). simpl. exact IH.
Qed.

Lemma take_app_length a b n :
  take (String.length a + n) (a +:+ b) = a +:+ take n b.
Proof.
  induction a as [|x a IH]; [done|].
  change (String x a +:+ b) with (String x (a +:+ b)).
  change (String x a +:+ take n b) with (String x (a +:+ take n b)).
  simpl. by rewrite IH.
Qed.

Lemma has_char_take c n s : has_char c s = false → has_char c (take n s) = false.
Proof.
  revert n. induction s as [|x s IH]; intros [|n]; simpl; try done.
  intros [-> Hs]%orb_false_elim. simpl. by apply IH.
Qed.

(** A path is a directory part, empty or ended by its last slash, followed
    by its base name, which has no slash. *)
Lemma basename_split p :
  ∃ d, p = d +:+ basename p ∧ has_char "/" (basename p) = false
       ∧ rfind "/" p = len d - 1.
Proof.
  unfold basename, slice_from, len.
  induction p as [|a p (d & Hp & Hfree & Hr)].
  - exists "". by vm_compute.
  - unfold rfind. simpl rfind_from. rewrite rfind_from_spec.
    destruct (has_char "/" p) eqn:Hslash.
    + exists (String a d).
      pose proof (rfind_bounds "/" p) as [_ Hpos]. specialize (Hpos Hslash).
      replace (Z.to_nat (0 + 1 + rfind "/" p + 1))
        with (S (Z.to_nat (rfind "/" p + 1))) by lia.
      simpl drop. simpl String.length.
      split; [|split; [done|lia]].
      change (String a d +:+ drop (Z.to_nat (rfind "/" p + 1)) p)
        with (String a (d +:+ drop (Z.to_nat (rfind "/" p + 1)) p)).
      by rewrite <- Hp.
    + assert (rfind "/" p = -1) as Hm
        by (unfold rfind; by rewrite rfind_from_spec, Hslash).
      destruct (Ascii.eqb_spec a "/") as [->|Hne].
      * exists "/". by vm_compute.
      * exists "". simpl. apply Ascii.eqb_neq in Hne. by rewrite Hne, Hslash.
Qed.

Lemma has_non_dot_app d b k n :
  (0 ≤ k)%Z →
  has_non_dot (d +:+ b) (len d + k) n = has_non_dot b k n.
Proof.
  revert k. induction n as [|n IH]; intros k Hk; simpl; [done|].
  unfold char_at, len.
  replace (Z.to_nat (Z.of_nat (String.length d) + k))
    with (String.length d + Z.to_nat k)%nat by lia.
  rewrite drop_app_length.
  replace (Z.of_nat (String.length d) + k + 1) with (len d + (k + 1))
    by (unfold len; lia).
  rewrite IH by lia. done.
Qed.

(** X11. The identifier that [Validation] derives from the path of a playbook,
    [splitext(basename(path))[0]], is the name under which
    [run_validations] looks the playbook up in [skip_list],
    [basename(splitext(path)[0])]. *)
Theorem validation_id_is_play_id p :
  fst (splitext (basename p)) = play_id p.
Proof.
  unfold play_id.
  destruct (basename_split p) as (d & Hp & Hfree & Hsep).
  set (b := basename p) in *.
  assert (rfind "/" b = -1) as Hsepb
    by (unfold rfind; by rewrite rfind_from_spec, Hfree).
  assert (rfind "/" d = len d - 1) as Hsepd.
  { rewrite Hp, rfind_app, Hfree in Hsep. exact Hsep. }
  pose proof (rfind_bounds "." b) as [Hdotb Hdotpos].
  pose proof (rfind_bounds "." d) as [Hdotd _].
  unfold splitext at 1. rewrite Hsepb.
  unfold splitext. rewrite Hsep.
  assert (rfind "." p
          = if has_char "." b then len d + rfind "." b else rfind "." d)
    as Hdotp by (rewrite Hp at 1; apply rfind_app).
  rewrite Hdotp.
  destruct (has_char "." b) eqn:Hdot.
  - specialize (Hdotpos eq_refl).
    rewrite (proj2 (Z.ltb_lt (-1) (rfind "." b))) by lia.
    rewrite (proj2 (Z.ltb_lt (len d - 1) (len d + rfind "." b))) by lia.
    replace (len d + rfind "." b - (len d - 1 + 1)) with (rfind "." b) by lia.
    replace (rfind "." b - (-1 + 1)) with (rfind "." b) by lia.
    replace (len d - 1 + 1) with (len d + 0) by lia.
    rewrite Hp at 1. rewrite has_non_dot_app by lia.
    change (-1 + 1) with 0.
    destruct (has_non_dot b 0 (Z.to_nat (rfind "." b))); [|done].
    cbn [fst]. unfold slice_to.
    replace (Z.to_nat (len d + rfind "." b))
      with (String.length d + Z.to_nat (rfind "." b))%nat
      by (unfold len; lia).
    rewrite Hp at 1. rewrite take_app_length.
    unfold basename, slice_from.
    rewrite rfind_app, has_char_take, Hsepd by done.
    replace (Z.to_nat (len d - 1 + 1)) with (String.length d + 0)%nat
      by (unfold len; lia).
    by rewrite drop_app_length.
  - assert (rfind "." b = -1) as ->
      by (unfold rfind; by rewrite rfind_from_spec, Hdot).
    rewrite (proj2 (Z.ltb_ge (len d - 1) (rfind "." d))) by lia.
    done.
Qed.

End PathFacts.

Section PlaybookNames.

Local Open Scope Z_scope.

Lemma has_char_app c a b :
  has_char c (a +:+ b) = has_char c a || has_char c b.
Proof.
  induction a as [|x a IH]; [done|].
  change (String x a +:+ b) with (String x (a +:+ b)). simpl.
  by rewrite IH, orb_assoc.
Qed.

Lemma has_non_dot_prefix a b :
  has_non_dot (a +:+ b) 0 (String.length a) = negb (all_dots a).
Proof.
  induction a as [|x a IH]; [done|].
  change (String x a +:+ b) with (String x (a +:+ b)).
  cbn [String.length has_non_dot all_dots].
  change (char_at 0 (String x (a +:+ b))) with (String x "").
  change (String.eqb (String x "") ".") with (Ascii.eqb x "." && true)%bool.
  rewrite andb_true_r.
  destruct (Ascii.eqb x "."); [|done]. cbn [negb andb].
  pose proof (has_non_dot_app (String x "") (a +:+ b) 0 (String.length a))
    as Happ.
  change (String x "" +:+ a +:+ b) with (String x (a +:+ b)) in Happ.
  replace (0 + 1) with (Z.of_nat (String.length (String x "")) + 0)
    by (simpl; lia).
  rewrite Happ by lia. exact IH.
Qed.

(** X12. The playbook that the selection by groups names for a validation,
    [id + '.yaml'], has the play name [id]: a skip rule under the
    identifier of a validation applies to it. This holds for an
    identifier without slash that is not made of dots only. *)
Theorem play_id_of_group_playbook id :
  has_char "/" id = false → all_dots id = false →
  play_id (id +:+ ".yaml") = id.
Proof.
  intros Hslash Hdots.
  assert (rfind "/" (id +:+ ".yaml") = -1) as Hsep.
  { unfold rfind. by rewrite rfind_from_spec, has_char_app, Hslash. }
  assert (rfind "." (id +:+ ".yaml") = Z.of_nat (String.length id)) as Hdot.
  { rewrite rfind_app. change (has_char "." ".yaml") with true.
    change (rfind "." ".yaml") with 0. cbv zeta. lia. }
  unfold play_id, splitext. rewrite Hsep, Hdot.
  rewrite (proj2 (Z.ltb_lt (-1) (Z.of_nat (String.length id)))) by lia.
  replace (Z.to_nat (Z.of_nat (String.length id) - (-1 + 1)))
    with (String.length id) by lia.
  change (-1 + 1) with 0.
  rewrite has_non_dot_prefix, Hdots. cbn [negb fst].
  unfold slice_to. rewrite Nat2Z.id.
  pose proof (take_app_length id ".yaml" 0) as Htake.
  rewrite Nat.add_0_r in Htake. rewrite Htake.
  change (take 0 ".yaml") with "". rewrite append_empty_r.
  unfold basename, slice_from.
  assert (rfind "/" id = -1) as ->
    by (unfold rfind; by rewrite rfind_from_spec, Hslash).
  done.
Qed.

Lemma play_id_of_group_playbook_witness : play_id ("check-ram" +:+ ".yaml") = "check-ram".
Proof.
  apply play_id_of_group_playbook; reflexivity.
Defined.

End PlaybookNames.

(** ** Dictionaries *)

Section DictFacts.

Context {V : Type}.

Implicit Types (d o : list (string * V)).

Lemma dict_get_set d k v k' :
  PyDict.get (PyDict.set d k v) k'
  = if String.eqb k k' then Some v else PyDict.get d k'.
Proof.
  induction d as [|[k0 v0] d IH]; simpl.
  - done.
  - destruct (String.eqb_spec k0 k) as [->|Hne]; simpl.
    + by destruct (String.eqb k k').
    + rewrite IH. destruct (String.eqb_spec k0 k') as [->|_]; [|done].
      destruct (String.eqb_spec k k'); congruence.
Qed.

Lemma dict_get_notin d k :
  ¬ In k (map fst d) → PyDict.get d k = None.
Proof.
  induction d as [|[k0 v0] d IH]; simpl; [done|].
  intros Hnot. destruct (String.eqb_spec k0 k); [tauto|]. apply IH. tauto.
Qed.

Lemma dict_get_update d o k :
  List.NoDup (map fst o) →
  PyDict.get (PyDict.update d o) k
  = match PyDict.get o k with
    | Some v => Some v
    | None => PyDict.get d k
    end.
Proof.
  unfold PyDict.update. revert d.
  induction o as [|[k0 v0] o IH]; intros d Hnd; simpl; [done|].
  inversion Hnd as [|? ? Hnotin Hnd']; subst.
  rewrite IH by done. rewrite dict_get_set.
  destruct (String.eqb_spec k0 k) as [->|_]; [|done].
  by rewrite dict_get_notin.
Qed.

Lemma dict_get_remove_ne d k k' :
  k ≠ k' → PyDict.get (PyDict.remove d k) k' = PyDict.get d k'.
Proof.
  intros Hne. induction d as [|[k0 v0] d IH]; simpl; [done|].
  destruct (String.eqb_spec k0 k) as [->|_]; simpl.
  - by destruct (String.eqb_spec k k').
  - by rewrite IH.
Qed.

Lemma dict_get_remove_eq d k :
  List.NoDup (map fst d) → PyDict.get (PyDict.remove d k) k = None.
Proof.
  induction d as [|[k0 v0] d IH]; simpl; [done|].
  intros Hnd. inversion Hnd as [|? ? Hnotin Hnd']; subst.
  destruct (String.eqb_spec k0 k) as [->|Hne]; simpl.
  - by apply dict_get_notin.
  - destruct (String.eqb_spec k0 k); [done|]. by apply IH.
Qed.

Lemma dict_set_fresh d k v :
  PyDict.get d k = None → PyDict.set d k v = d ++ [(k, v)].
Proof.
  induction d as [|[k0 v0] d IH]; simpl; [done|].
  destruct (String.eqb k0 k); [done|]. intros Hd. by rewrite IH.
Qed.

Lemma dict_get_in d k v :
  List.NoDup (map fst d) → In (k, v) d → PyDict.get d k = Some v.
Proof.
  induction d as [|[k0 v0] d IH]; simpl; [done|].
  intros Hnd [[= -> ->] | Hin].
  - by rewrite String.eqb_refl.
  - inversion Hnd as [|? ? Hnotin Hnd']; subst.
    destruct (String.eqb_spec k0 k) as [->|_]; [|by apply IH].
    exfalso. apply Hnotin, in_map_iff. by exists (k, v).
Qed.

End DictFacts.

(** ** The metadata of a validation *)

Section ValidationFacts.

Import Validation.

Implicit Types (self : t) (d v m : list (string * yaml)).

Lemma has_metadata_true self d v x :
  dict self = YDict d → PyDict.get d "vars" = Some (YDict v) →
  PyDict.get v "metadata" = Some x →
  has_metadata_dict self = inr true
  ∧ vars_of self = YDict v ∧ metadata_of self = x.
Proof.
  intros Hd Hv Hm.
  unfold has_metadata_dict, has_vars_dict, metadata_of, vars_of, keys_of,
    PyDict.mem.
  rewrite Hd, Hv. simpl. by rewrite Hm.
Qed.

(** X20. The metadata that [get_metadata] returns are the metadata of the
    playbook together with an [id]: the identifier of the file, unless
    the metadata have an [id] of their own, which is then kept. *)
Theorem get_metadata_entries self d v m :
  dict self = YDict d → PyDict.get d "vars" = Some (YDict v) →
  PyDict.get v "metadata" = Some (YDict m) → List.NoDup (map fst m) →
  ∃ md, get_metadata self = inr md
    ∧ ∀ k, PyDict.get md k
           = match PyDict.get m k with
             | Some x => Some x
             | None => if String.eqb k "id" then Some (YStr (id self))
                       else None
             end.
Proof.
  intros Hd Hv Hm Hnd.
  destruct (has_metadata_true self d v _ Hd Hv Hm) as (Hhas & _ & Hmeta).
  unfold get_metadata. rewrite Hhas, Hmeta.
  eexists. split; [reflexivity|]. intros k.
  rewrite dict_get_update by done. simpl.
  by rewrite String.eqb_sym.
Qed.

(** X21. [get_vars] returns the variables of the playbook without the
    metadata: no [metadata] key, and every other variable with its
    value. *)
Theorem get_vars_without_metadata self d v x :
  dict self = YDict d → PyDict.get d "vars" = Some (YDict v) →
  PyDict.get v "metadata" = Some x → List.NoDup (map fst v) →
  ∃ vs, get_vars self = inr vs
    ∧ PyDict.get vs "metadata" = None
    ∧ ∀ k, k ≠ "metadata" → PyDict.get vs k = PyDict.get v k.
Proof.
  intros Hd Hv Hm Hnd.
  destruct (has_metadata_true self d v _ Hd Hv Hm) as (Hhas & Hvars & _).
  unfold get_vars. rewrite Hhas, Hvars.
  eexists. split; [reflexivity|]. split.
  - by apply dict_get_remove_eq.
  - intros k Hk. by apply dict_get_remove_ne.
Qed.

(** X22. Without metadata, that is without [vars] or without [metadata] in
    them, the four accessors raise the same [NameError], which names
    the validation; none of them raises a [NameError] otherwise. *)
Theorem no_metadata_name_error self :
  (has_metadata_dict self = inr false →
   get_metadata self = inl (no_metadata self)
   ∧ get_vars self = inl (no_metadata self)
   ∧ groups self = inl (no_metadata self)
   ∧ get_formated_data self = inl (no_metadata self))
  ∧ (∀ msg, get_metadata self = inl (NameError msg)
            ∨ get_vars self = inl (NameError msg)
            ∨ groups self = inl (NameError msg)
            ∨ get_formated_data self = inl (NameError msg) →
            has_metadata_dict self = inr false
            ∧ msg = "No metadata found in validation " +:+ id self).
Proof.
  split.
  - intros Hhas. unfold get_formated_data, get_metadata, get_vars, groups.
    by rewrite Hhas.
  - intros msg.
    unfold get_formated_data, get_metadata, get_vars, groups, no_metadata.
    destruct (has_metadata_dict self) as [e|[|]] eqn:Hhas.
    + unfold has_metadata_dict, has_vars_dict, keys_of in Hhas.
      destruct (dict self); try discriminate Hhas;
        try (injection Hhas as <-; intros [?|[?|[?|?]]]; discriminate).
      destruct (PyDict.mem d "vars"); [|discriminate Hhas].
      destruct (vars_of self); try discriminate Hhas;
        injection Hhas as <-; intros [?|[?|[?|?]]]; discriminate.
    + destruct (metadata_of self), (vars_of self); simpl;
        try (intros [?|[?|[?|?]]]; discriminate);
        match goal with
        | |- context [match ?l with [] => _ | _ :: _ => _ end] =>
            destruct l; intros [?|[?|[?|?]]]; discriminate
        end.
    + intros [[= <-]|[[= <-]|[[= <-]|[= <-]]]]; done.
Qed.

End ValidationFacts.

Section FormattedData.

Import Validation.

Lemma lower_col_keys :
  map lower _col_keys = ["id"; "name"; "description"; "groups"].
Proof. reflexivity. Qed.

(** The four keys that have a column are stored under the name of the
    column, any other key under its own name. *)
Lemma display_key_spec k :
  display_key k
  = if String.eqb k "id" then "ID"
    else if String.eqb k "name" then "Name"
    else if String.eqb k "description" then "Description"
    else if String.eqb k "groups" then "Groups"
    else k.
Proof.
  unfold display_key. rewrite lower_col_keys. cbn [existsb].
  destruct (String.eqb_spec k "id") as [->|_]; [reflexivity|].
  destruct (String.eqb_spec k "name") as [->|_]; [reflexivity|].
  destruct (String.eqb_spec k "description") as [->|_]; [reflexivity|].
  destruct (String.eqb_spec k "groups") as [->|_]; [reflexivity|].
  reflexivity.
Qed.

Lemma dict_get_app_none {V} (d : list (string * V)) k v k' :
  PyDict.get d k' = None → k ≠ k' → PyDict.get (d ++ [(k, v)]) k' = None.
Proof.
  intros Hd Hne. induction d as [|[k0 v0] d IH]; simpl in *.
  - by destruct (String.eqb_spec k k').
  - destruct (String.eqb k0 k'); [done|]. by apply IH.
Qed.

Lemma format_keys_fresh metadata keys : ∀ data,
  List.NoDup (map display_key keys) →
  (∀ k, In k keys → PyDict.get data (display_key k) = None) →
  format_keys metadata keys data
  = data ++ map (λ k, (display_key k, default YNone (PyDict.get metadata k)))
                keys.
Proof.
  unfold format_keys.
  match goal with |- context [fold_left ?g _ _] => set (f := g) end.
  assert (∀ data key,
            f data key
            = PyDict.set data (display_key key)
                         (default YNone (PyDict.get metadata key))) as Hf.
  { intros data key. unfold f, display_key.
    by destruct (existsb (String.eqb key) (map lower _col_keys)). }
  clearbody f.
  induction keys as [|key keys IH]; intros data Hnd Hfresh;
    cbn [fold_left map].
  - by rewrite app_nil_r.
  - inversion Hnd as [|? ? Hnotin Hnd']; subst.
    rewrite Hf, dict_set_fresh by (apply Hfresh; by left).
    rewrite IH; [by rewrite <- app_assoc | done |].
    intros k Hk. apply dict_get_app_none; [apply Hfresh; by right|].
    intros Heq. apply Hnotin. rewrite Heq. by apply in_map.
Qed.

(** X23. [get_formated_data] returns the metadata in their order, each value
    under its display key, when no two keys have the same display key
    (as [id] and [ID] would). *)
Theorem get_formated_data_renames self md :
  get_metadata self = inr md →
  List.NoDup (map fst md) →
  List.NoDup (map display_key (map fst md)) →
  get_formated_data self = inr (map (λ '(k, x), (display_key k, x)) md).
Proof.
  intros Hmd Hnd Hdisp. unfold get_formated_data. rewrite Hmd.
  destruct md as [|item md']; [done|].
  set (md := item :: md') in *.
  rewrite format_keys_fresh by done. cbn [app]. f_equal.
  rewrite map_map. apply map_ext_in. intros [k x] Hin. cbn [fst].
  by rewrite (dict_get_in md k x Hnd Hin).
Qed.

Lemma get_metadata_entries_witness :
  ∃ md, get_metadata hello_world = inr md
        ∧ PyDict.get md "id" = Some (YStr "hello-world")
        ∧ PyDict.get md "name" = Some (YStr "Hello World").
Proof.
  destruct (get_metadata_entries hello_world
              [ ("hosts", YStr "webserver");
                ("vars",
                 YDict [ ("metadata",
                          YDict [ ("name", YStr "Hello World");
                                  ("description",
                                   YStr "This validation prints Hello World!");
                                  ("groups",
                                   YList [YStr "pre-deployment";
                                          YStr "hardware"]) ]);
                         ("var_name1", YStr "value1") ]);
                ("roles", YList [YStr "hello-world"]) ]
              [ ("metadata",
                 YDict [ ("name", YStr "Hello World");
                         ("description",
                          YStr "This validation prints Hello World!");
                         ("groups",
                          YList [YStr "pre-deployment"; YStr "hardware"]) ]);
                ("var_name1", YStr "value1") ]
              [ ("name", YStr "Hello World");
                ("description", YStr "This validation prints Hello World!");
                ("groups", YList [YStr "pre-deployment"; YStr "hardware"]) ]
              eq_refl eq_refl eq_refl) as (md & Hmd & Hget).
  - repeat constructor; simpl; intuition discriminate.
  - exists md. split; [exact Hmd|].
    split; [exact (Hget "id") | exact (Hget "name")].
Defined.

Lemma get_vars_without_metadata_witness :
  ∃ vs, get_vars hello_world = inr vs
        ∧ PyDict.get vs "metadata" = None
        ∧ PyDict.get vs "var_name1" = Some (YStr "value1").
Proof.
  destruct (get_vars_without_metadata hello_world
              [ ("hosts", YStr "webserver");
                ("vars",
                 YDict [ ("metadata",
                          YDict [ ("name", YStr "Hello World");
                                  ("description",
                                   YStr "This validation prints Hello World!");
                                  ("groups",
                                   YList [YStr "pre-deployment";
                                          YStr "hardware"]) ]);
                         ("var_name1", YStr "value1") ]);
                ("roles", YList [YStr "hello-world"]) ]
              [ ("metadata",
                 YDict [ ("name", YStr "Hello World");
                         ("description",
                          YStr "This validation prints Hello World!");
                         ("groups",
                          YList [YStr "pre-deployment"; YStr "hardware"]) ]);
                ("var_name1", YStr "value1") ]
              (YDict [ ("name", YStr "Hello World");
                       ("description",
                        YStr "This validation prints Hello World!");
                       ("groups",
                        YList [YStr "pre-deployment"; YStr "hardware"]) ])
              eq_refl eq_refl eq_refl) as (vs & Hvs & Hnone & Hother).
  - repeat constructor; simpl; intuition discriminate.
  - exists vs. split; [exact Hvs|]. split; [exact Hnone|].
    refine (Hother "var_name1" _). discriminate.
Defined.

Lemma get_formated_data_renames_witness :
  get_formated_data hello_world
  = inr [ ("ID", YStr "hello-world");
          ("Name", YStr "Hello World");
          ("Description", YStr "This validation prints Hello World!");
          ("Groups", YList [YStr "pre-deployment"; YStr "hardware"]) ].
Proof.
  refine (get_formated_data_renames hello_world
            [ ("id", YStr "hello-world");
              ("name", YStr "Hello World");
              ("description", YStr "This validation prints Hello World!");
              ("groups", YList [YStr "pre-deployment"; YStr "hardware"]) ]
            eq_refl _ _).
  - repeat constructor; simpl; intuition discriminate.
  - repeat constructor; simpl; intuition discriminate.
Defined.

(** A playbook without [vars]. *)
Example no_vars_name_error :
  get_metadata (mk (YDict [("hosts", YStr "all")]) "foo")
  = inl (NameError "No metadata found in validation foo").
Proof. reflexivity. Qed.

(** An [id] among the metadata replaces the identifier of the file. *)
Example metadata_id_wins :
  get_metadata
    (mk (YDict [("vars", YDict [("metadata", YDict [("id", YStr "other")])])])
        "foo")
  = inr [("id", YStr "other")].
Proof. reflexivity. Qed.

End FormattedData.

(** ** The history *)

Section HistoryFacts.

Import Queries.

Context `{LogStore} `{PlayStore}.

Lemma extend_logs_flat_map log_path ids : ∀ logs,
  extend_logs log_path ids logs
  = logs ++ flat_map (get_logfile_by_validation log_path) ids.
Proof.
  induction ids as [|i ids IH]; intros logs; simpl.
  - by rewrite app_nil_r.
  - by rewrite IH, <- app_assoc.
Qed.

Lemma append_plays_spec log plays : ∀ values,
  match append_plays log plays values with
  | inr values' =>
      values' = values ++ omap (play_row log) plays
      ∧ ∀ play, In play plays → is_Some (play_row log play)
  | inl e =>
      (∃ k, e = KeyError k)
      ∧ ∃ play, In play plays ∧ play_row log play = None
  end.
Proof.
  induction plays as [|play plays IH]; intros values.
  - simpl. rewrite app_nil_r. by split.
  - cbn [append_plays omap list_omap]. unfold play_row at 1 2.
    destruct (play_id play) as [i|] eqn:Hi;
      [|split; [eauto|exists play; split; [by left|];
                       unfold play_row; by rewrite Hi]].
    destruct (play_validation_id play) as [v|] eqn:Hv;
      [|split; [eauto|exists play; split; [by left|];
                       unfold play_row; by rewrite Hi, Hv]].
    destruct (play_duration play) as [d|] eqn:Hd;
      [|split; [eauto|exists play; split; [by left|];
                       unfold play_row; by rewrite Hi, Hv, Hd]].
    specialize (IH (values ++ [(i, v, get_log_status log, start d,
                                time_elapsed d)])).
    destruct (append_plays log plays _) as [e|values'].
    + destruct IH as [Hk (play' & Hin & Hnone)].
      split; [done|]. exists play'. split; [by right|done].
    + destruct IH as [-> Hall]. split.
      * by rewrite <- app_assoc.
      * intros play' [<-|Hin]; [|by apply Hall].
        unfold play_row. rewrite Hi, Hv, Hd. eauto.
Qed.

Lemma append_history_spec logs : ∀ values,
  match append_history logs values with
  | inr values' => values' = values ++ history_of logs ∧ complete_plays logs
  | inl e => (∃ k, e = KeyError k) ∧ ¬ complete_plays logs
  end.
Proof.
  induction logs as [|log logs IH]; intros values.
  - simpl. rewrite app_nil_r. split; [done|]. by intros ? ? [].
  - cbn [append_history history_of flat_map].
    destruct (is_valid_format log) eqn:Hvalid.
    + pose proof (append_plays_spec log (get_plays log) values) as Hplays.
      destruct (append_plays log (get_plays log) values) as [e|values1].
      * destruct Hplays as [Hk (play & Hin & Hnone)]. split; [done|].
        intros Hc. destruct (Hc log play) as [row Hrow]; try done; [by left|].
        congruence.
      * destruct Hplays as [-> Hall]. specialize (IH (values ++ omap (play_row log) (get_plays log))).
        destruct (append_history logs _) as [e|values2].
        -- destruct IH as [Hk Hnot]. split; [done|].
           intros Hc. apply Hnot. intros l p Hl. apply Hc. by right.
        -- destruct IH as [-> Hc]. split.
           ++ fold (history_of logs). by rewrite <- app_assoc.
           ++ intros l p [<-|Hl] Hv Hp; [by apply Hall | by apply Hc].
    + specialize (IH values).
      destruct (append_history logs values) as [e|values2].
      * destruct IH as [Hk Hnot]. split; [done|].
        intros Hc. apply Hnot. intros l p Hl. apply Hc. by right.
      * destruct IH as [-> Hc]. split; [done|].
        intros l p [<-|Hl] Hv Hp; [congruence | by apply Hc].
Qed.

Lemma show_history_logs validation_ids extension log_path :
  show_history validation_ids extension log_path
  = match append_history (history_logs validation_ids extension log_path) []
    with
    | inl e => inl e
    | inr values =>
        inr (["UUID"; "Validations"; "Status"; "Execution at"; "Duration"],
             values)
    end.
Proof.
  unfold show_history, history_logs.
  destruct validation_ids as [[[|a s]|[|i l]]|]; cbn [ids_truthy truthy];
    try done.
  by rewrite extend_logs_flat_map.
Qed.

(** X14. [show_history] reads the logs of the validations given (a name alone
    standing for the list of that name) or, without names, all the logs.
    It returns exactly when every play of the logs of valid format has
    its [id], [validation_id] and [duration], with one row for each
    such play, in order, under the status of its log; a log of another
    format gives no row; a missing key raises [KeyError]. *)
Theorem show_history_rows validation_ids extension log_path :
  let logs := history_logs validation_ids extension log_path in
  ((∃ r, show_history validation_ids extension log_path = inr r)
   ↔ complete_plays logs)
  ∧ (∀ r, show_history validation_ids extension log_path = inr r →
       r = (["UUID"; "Validations"; "Status"; "Execution at"; "Duration"],
            history_of logs))
  ∧ (∀ e, show_history validation_ids extension log_path = inl e →
       ∃ k, e = KeyError k).
Proof.
  intros logs. rewrite show_history_logs. fold logs.
  pose proof (append_history_spec logs []) as Hspec.
  destruct (append_history logs []) as [e|values].
  - destruct Hspec as [Hk Hnot].
    split; [split; [by intros [r ?]|done]|].
    split; [done|]. by intros e' [= <-].
  - destruct Hspec as [-> Hc].
    split; [split; eauto|]. split; [|done].
    by intros r [= <-].
Qed.

(** X15. The history of the validations [a] followed by [b] is the history of
    [a] followed by the history of [b]. *)
Theorem show_history_concat a b extension log_path ra rb :
  a ≠ [] → b ≠ [] →
  show_history (Some (IdList a)) extension log_path = inr ra →
  show_history (Some (IdList b)) extension log_path = inr rb →
  show_history (Some (IdList (a ++ b))) extension log_path
  = inr (ra.1, ra.2 ++ rb.2).
Proof.
  intros Ha Hb. rewrite !show_history_logs.
  assert (∀ l, l ≠ [] →
            history_logs (Some (IdList l)) extension log_path
            = flat_map (get_logfile_by_validation log_path) l) as Hlogs
    by (intros [|? ?]; done).
  rewrite !Hlogs by (try done; by destruct a).
  rewrite flat_map_app.
  set (la := flat_map (get_logfile_by_validation log_path) a).
  set (lb := flat_map (get_logfile_by_validation log_path) b).
  pose proof (append_history_spec la []) as Hsa.
  pose proof (append_history_spec lb []) as Hsb.
  pose proof (append_history_spec (la ++ lb) []) as Hsab.
  destruct (append_history la []) as [?|va]; [done|].
  destruct (append_history lb []) as [?|vb]; [done|].
  destruct Hsa as [-> Hca]. destruct Hsb as [-> Hcb].
  intros [= <-] [= <-]. cbn [fst snd app].
  destruct (append_history (la ++ lb) []) as [e|vab].
  - destruct Hsab as [_ Hnot]. exfalso. apply Hnot.
    intros l p [Hl|Hl]%in_app_or; [by apply Hca | by apply Hcb].
  - destruct Hsab as [-> _]. cbn [app].
    unfold history_of. by rewrite flat_map_app.
Qed.

End HistoryFacts.

Lemma show_history_concat_witness :
  Queries.show_history (H := Catalog.log_store []) (H0 := Samples.play_store)
    (Some (Queries.IdList (["foo"] ++ ["bar"]))) "json" "/var/log"
  = inr (["UUID"; "Validations"; "Status"; "Execution at"; "Duration"],
         [("/var/log/foo.json", "foo", "PASSED",
           Some "2019-11-25T13:40:14.404623Z", Some "0:00:03.753")]
         ++ [("/var/log/bar.json", "foo", "PASSED",
              Some "2019-11-25T13:40:14.404623Z", Some "0:00:03.753")]).
Proof.
  refine (show_history_concat (H := Catalog.log_store [])
            (H0 := Samples.play_store) ["foo"] ["bar"] "json" "/var/log"
            (_, _) (_, _) _ _ eq_refl eq_refl); discriminate.
Defined.

(** A play without [id] in a log of valid format makes [show_history]
    raise. *)
Example show_history_missing_id :
  Queries.show_history (H := Catalog.log_store [])
    (H0 := {| Queries.get_all_logfiles := λ _ _, ["/var/log/x.json"];
              Queries.get_plays := λ _,
                [Queries.mkPlay None (Some "foo") None];
              Queries.get_log_status := λ _, "PASSED" |})
    None "json" "/var/log"
  = inl (KeyError "id").
Proof. reflexivity. Qed.

(** ** The status with logs of another format *)

Section StatusFacts.

Context `{LogStore}.

Lemma append_logs_invalid status logs : ∀ values,
  (∀ log, In log logs → is_valid_format log = false) →
  append_logs status logs values = inr values.
Proof.
  induction logs as [|log logs IH]; intros values Hinv; simpl; [done|].
  rewrite (Hinv log) by (by left). apply IH.
  intros l Hl. apply Hinv. by right.
Qed.

(** X13. When an identifier is given and none of its logs has the valid
    format, [get_status] returns no row and does not raise. *)
Theorem get_status_no_valid_log validation_id uuid status log_path logs :
  queried_logs validation_id uuid log_path = Some logs →
  (∀ log, In log logs → is_valid_format log = false) →
  get_status validation_id uuid status log_path
  = inr (["name"; "host"; "status"; "task_data"], []).
Proof.
  intros Hq Hinv. unfold get_status. unfold queried_logs in Hq.
  destruct (otruthy validation_id).
  - injection Hq as <-. by rewrite append_logs_invalid.
  - destruct (otruthy uuid); [|done].
    injection Hq as <-. by rewrite append_logs_invalid.
Qed.

End StatusFacts.

Lemma get_status_no_valid_log_witness :
  get_status
    (H := {| Payload := string;
             get_logfile_by_validation := λ log_path validation_id,
               [log_path +:+ "/" +:+ validation_id +:+ ".json"];
             get_logfile_by_uuid := λ log_path uuid, [];
             is_valid_format := λ log, false;
             get_tasks_data := λ log,
               [mkTask "t" "FAILED" [("h1", "p1")]] |})
    (Some "foo") None "FAILED" "/var/log"
  = inr (["name"; "host"; "status"; "task_data"], []).
Proof.
  refine (get_status_no_valid_log
            (H := {| Payload := string;
                     get_logfile_by_validation := λ log_path validation_id,
                       [log_path +:+ "/" +:+ validation_id +:+ ".json"];
                     get_logfile_by_uuid := λ log_path uuid, [];
                     is_valid_format := λ log, false;
                     get_tasks_data := λ log,
                       [mkTask "t" "FAILED" [("h1", "p1")]] |})
            (Some "foo") None "FAILED" "/var/log" ["/var/log/foo.json"]
            eq_refl _).
  reflexivity.
Defined.

(** ** The details of a validation, the parameters *)

Section ShowFacts.

Import Queries.

Context `{ShowStore}.

(** X16. [show_validations] raises exactly when the validation has no data,
    with the message that names the validation and the path. Otherwise
    it returns the data updated with the statistics of the logs: a key
    of the statistics has the value of the statistics, any other key the
    value of the data. *)
Theorem show_validations_entries self validation log_path :
  let stats :=
    get_validations_stats
      (get_logfile_content_by_validation log_path validation) in
  ((∃ e, show_validations self validation log_path = inl e)
   ↔ get_validations_data validation self = None
     ∨ get_validations_data validation self = Some [])
  ∧ (∀ e, show_validations self validation log_path = inl e →
       e = RuntimeError ("Validation " +:+ validation
                         +:+ " not found in the path: " +:+ self))
  ∧ (∀ r, show_validations self validation log_path = inr r →
       ∃ data, get_validations_data validation self = Some data
         ∧ (List.NoDup (map fst stats) →
            ∀ k, PyDict.get r k
                 = match PyDict.get stats k with
                   | Some v => Some v
                   | None => PyDict.get data k
                   end)).
Proof.
  intros stats. unfold show_validations. fold stats.
  destruct (get_validations_data validation self) as [[|item data]|].
  - split; [split; eauto|]. split; [by intros e [= <-]|done].
  - split; [split; [by intros [e ?]|by intros [?|?]]|].
    split; [done|]. intros r [= <-].
    eexists. split; [done|]. intros Hnd k. by apply dict_get_update.
  - split; [split; eauto|]. split; [by intros e [= <-]|done].
Qed.

End ShowFacts.

Section ParameterFacts.

Import Queries.

Context `{ParameterTools}.

(** X17. An output format other than [json] and [yaml] raises the error that
    names the format; no file is opened or written. *)
Theorem unsupported_format_raises self validation group output_format
    download_file fs :
  output_format ≠ "json" → output_format ≠ "yaml" →
  show_validations_parameters self validation group output_format
                              download_file fs
  = (inl (RuntimeError (output_format +:+ " output format not supported")),
     fs).
Proof.
  intros Hj Hy. unfold show_validations_parameters. cbn [existsb].
  destruct (String.eqb_spec output_format "json"); [done|].
  destruct (String.eqb_spec output_format "yaml"); [done|].
  done.
Qed.

(** X18. With a supported format the parameters by validation are returned in
    that format, whether a file is asked for or not. A file is opened
    and written, once, exactly when [download_file] is given, and it
    holds the parameters alone in the same format. *)
Theorem supported_format_returns self validation group output_format
    download_file fs :
  output_format = "json" ∨ output_format = "yaml" →
  let dump := if String.eqb output_format "json" then json_dumps
              else yaml_safe_dump in
  let validation' := if ltruthy validation then default [] validation
                     else [] in
  let group' := if ltruthy group then default [] group else [] in
  let params :=
    get_validations_parameters (find_playbooks self validation' group')
                               validation' group' in
  show_validations_parameters self validation group output_format
                              download_file fs
  = (inr (dump (ByValidation params)),
     fs ++ if otruthy download_file then
             [EvOpenW (default "" download_file);
              EvWrite (default "" download_file)
                      (dump (ParametersOnly (parameters_only params)))]
           else []).
Proof.
  intros Hfmt dump validation' group' params.
  unfold show_validations_parameters.
  fold validation' group'. fold params.
  assert (existsb (String.eqb output_format) ["json"; "yaml"] = true) as ->
    by (destruct Hfmt as [-> | ->]; reflexivity).
  cbn [negb]. unfold mbind, M_bind, bind, mret, M_ret, ret,
                     call_open_w, call_write.
  unfold dump.
  destruct (otruthy download_file);
    destruct (String.eqb output_format "json");
    rewrite <- ?app_assoc, ?app_nil_r; reflexivity.
Qed.

(** X19. A parameter that no validation defines is not in the parameters
    alone; a parameter of the last validation has the value that this
    validation gives it. *)
Theorem parameters_only_last params val_name parameters k :
  List.NoDup (map fst parameters) →
  PyDict.get (parameters_only (params ++ [(val_name, parameters)])) k
  = match PyDict.get parameters k with
    | Some v => Some v
    | None => PyDict.get (parameters_only params) k
    end.
Proof.
  intros Hnd. unfold parameters_only. rewrite fold_left_app. cbn [fold_left].
  by apply dict_get_update.
Qed.

End ParameterFacts.

Section ParameterWitnesses.

Import Queries.

Lemma unsupported_format_raises_witness :
  show_validations_parameters (H := Samples.parameter_tools) "/tmp/foo"
    (Some ["foo"]) None "bar" (Some "/tmp/params") []
  = (inl (RuntimeError "bar output format not supported"), []).
Proof.
  apply (unsupported_format_raises (H := Samples.parameter_tools));
    discriminate.
Defined.

Lemma supported_format_returns_witness :
  show_validations_parameters (H := Samples.parameter_tools) "/tmp/foo"
    (Some ["check-cpu"; "check-ram"]) None "json" (Some "/tmp/params") []
  = (inr "json:check-cpu,check-ram",
     [EvOpenW "/tmp/params";
      EvWrite "/tmp/params" "json:minimal_cpu_count,minimal_ram_gb"]).
Proof.
  refine (supported_format_returns (H := Samples.parameter_tools) "/tmp/foo"
            (Some ["check-cpu"; "check-ram"]) None "json"
            (Some "/tmp/params") [] _).
  left. reflexivity.
Defined.

Lemma parameters_only_last_witness :
  PyDict.get
    (parameters_only (H := Samples.parameter_tools)
       ([("check-cpu", [("minimal", "8")])] ++ [("check-ram", [("minimal", "24")])]))
    "minimal"
  = Some "24".
Proof.
  refine (parameters_only_last (H := Samples.parameter_tools)
            [("check-cpu", [("minimal", "8")])] "check-ram"
            [("minimal", "24")] "minimal" _).
  repeat constructor. intros [].
Defined.

End ParameterWitnesses.

(** ** The extra variables of the client *)

Section ClientFacts.

Import Client.

(** [s.split(c)] has one piece more than [s] has occurrences of [c]. *)
Lemma split_length c s : length (split c s) = S (count_char c s).
Proof.
  induction s as [|a s IH]; simpl; [done|].
  destruct (Ascii.eqb a c); simpl; [by rewrite IH|].
  pose proof (split_nonempty c s) as Hne.
  destruct (split c s) as [|t ts]; [done|]. simpl in *. lia.
Qed.

Lemma dict_of_pairs_none items : ∀ d,
  dict_of_pairs items d = None ↔ ∃ item, In item items ∧ length item ≠ 2%nat.
Proof.
  induction items as [|item items IH]; intros d; simpl.
  - split; [done|]. by intros (? & [] & _).
  - destruct item as [|k [|v [|x item]]].
    + split; [|done]. intros _. exists []. split; [by left|done].
    + split; [|done]. intros _. exists [k]. split; [by left|done].
    + rewrite IH. split.
      * intros (it & Hin & Hlen). exists it. split; [by right|done].
      * intros (it & [<-|Hin] & Hlen); [done|]. by exists it.
    + split; [|done]. intros _. exists (k :: v :: x :: item).
      split; [by left|simpl; lia].
Qed.

(** X24. A non-empty list of extra variables is refused, with the error that
    asks for [KEY=VALUE], exactly when one of them does not have exactly
    one [=]; a value with an [=] in it is refused too. *)
Theorem read_extra_vars_raises_iff extra_vars :
  extra_vars ≠ [] →
  ((∃ e, read_extra_vars (Some extra_vars) = inl e)
   ↔ ∃ x, In x extra_vars ∧ count_char "=" x ≠ 1%nat)
  ∧ (∀ e, read_extra_vars (Some extra_vars) = inl e →
       e = RuntimeError "extra vars option should be formed as: KEY=VALUE.").
Proof.
  intros Hne. unfold read_extra_vars.
  destruct extra_vars as [|x0 l]; [done|]. cbn [ltruthy].
  unfold default, from_option, Datatypes.id.
  set (items := x0 :: l).
  destruct (dict_of_pairs (map (split "=") items) []) as [d|] eqn:Hd.
  - split; [|done]. split; [by intros [e ?]|].
    intros (x & Hin & Hcount).
    assert (dict_of_pairs (map (split "=") items) [] = None) as Hnone.
    { apply dict_of_pairs_none. exists (split "=" x).
      split; [by apply in_map|]. rewrite split_length. lia. }
    congruence.
  - split; [|by intros e [= <-]]. split; [|eauto].
    intros _. apply dict_of_pairs_none in Hd as (item & Hin & Hlen).
    apply in_map_iff in Hin as (x & <- & Hin).
    exists x. split; [done|]. rewrite split_length in Hlen. lia.
Qed.

Lemma dict_of_pairs_fresh (items : list (string * string)) : ∀ d,
  List.NoDup (map fst items) →
  (∀ k, In k (map fst items) → PyDict.get d k = None) →
  dict_of_pairs (map (λ '(k, v), [k; v]) items) d = Some (d ++ items).
Proof.
  induction items as [|[k v] items IH]; intros d Hnd Hfresh; simpl.
  - by rewrite app_nil_r.
  - inversion Hnd as [|? ? Hnotin Hnd']; subst.
    rewrite dict_set_fresh by (apply Hfresh; by left).
    rewrite IH; [by rewrite <- app_assoc | done |].
    intros k' Hk'. apply dict_get_app_none; [apply Hfresh; by right|].
    intros ->. done.
Qed.

(** X25. Extra variables written [KEY=VALUE], with distinct keys and no [=]
    inside a key or a value, are read as the dictionary of these keys
    and values, in their order. *)
Theorem read_extra_vars_round_trip (items : list (string * string)) :
  items ≠ [] →
  List.NoDup (map fst items) →
  (∀ k v, In (k, v) items →
          has_char "=" k = false ∧ has_char "=" v = false) →
  read_extra_vars (Some (map (λ '(k, v), k +:+ "=" +:+ v) items))
  = inr (AsDict items).
Proof.
  intros Hne Hnd Hfree. unfold read_extra_vars.
  destruct items as [|item items']; [done|].
  set (items := item :: items') in *. cbn [map ltruthy].
  unfold default, from_option, Datatypes.id.
  change ((let '(k, v) := item in k +:+ "=" +:+ v)
          :: map (λ '(k, v), k +:+ "=" +:+ v) items')
    with (map (λ '(k, v), k +:+ "=" +:+ v) items).
  rewrite map_map.
  assert (map (λ x, split "=" (let '(k, v) := x in k +:+ "=" +:+ v)) items
          = map (λ '(k, v), [k; v]) items) as ->.
  { apply map_ext_in. intros [k v] Hin.
    destruct (Hfree k v Hin) as [Hk Hv].
    change (k +:+ "=" +:+ v) with (k +:+ String "=" v).
    rewrite split_app_sep by done. by rewrite split_free. }
  by rewrite dict_of_pairs_fresh.
Qed.

Lemma read_extra_vars_raises_iff_witness :
  (∃ e, read_extra_vars (Some ["a=1"; "b=x=y"]) = inl e)
  ↔ ∃ x, In x ["a=1"; "b=x=y"] ∧ count_char "=" x ≠ 1%nat.
Proof.
  refine (proj1 (read_extra_vars_raises_iff ["a=1"; "b=x=y"] _)).
  discriminate.
Defined.

Lemma read_extra_vars_round_trip_witness :
  read_extra_vars (Some ["minimal_cpu_count=8"; "minimal_ram_gb=24"])
  = inr (AsDict [("minimal_cpu_count", "8"); ("minimal_ram_gb", "24")]).
Proof.
  refine (read_extra_vars_round_trip
            [("minimal_cpu_count", "8"); ("minimal_ram_gb", "24")] _ _ _).
  - discriminate.
  - repeat constructor; simpl; intuition discriminate.
  - intros k v [[= <- <-] | [[= <- <-] | []]]; split; reflexivity.
Defined.

End ClientFacts.

(** ** The guarded lookup of the skip rules *)

Section SkipLookup.

(** X3. Called on a playbook without rule, [_skip_hosts] raises [KeyError],
    and it raises nothing else; [_skip_playbook] tests the key first
    and never raises, whatever the skip list and the limit. *)
Theorem skip_lookup_is_guarded (m : gmap string SkipRule) sl pb
    (L : option string) :
  (_skip_hosts m pb L = inl (KeyError pb) ↔ m !! pb = None)
  ∧ (∀ e, _skip_hosts m pb L = inl e → e = KeyError pb)
  ∧ ∃ r, _skip_playbook sl pb L = inr r.
Proof.
  split; [|split].
  - unfold _skip_hosts. destruct (m !! pb) as [rule|]; [|done].
    split; [|done].
    destruct (hosts rule) as [h|]; [|done].
    by destruct (String.eqb h "ALL").
  - intros e. unfold _skip_hosts. destruct (m !! pb) as [rule|].
    + destruct (hosts rule) as [h|]; [|done].
      by destruct (String.eqb h "ALL").
    + by intros [= <-].
  - unfold _skip_playbook.
    destruct (dtruthy sl && bool_decide (pb ∈ dom (default ∅ sl))) eqn:E;
      [|eauto].
    apply andb_prop in E as [_ Hin]. apply bool_decide_eq_true in Hin.
    apply elem_of_dom in Hin as [rule Hrule].
    unfold _skip_hosts. rewrite Hrule.
    destruct (hosts rule) as [h|]; [|simpl; eauto].
    destruct (String.eqb h "ALL"); simpl; [eauto|].
    match goal with |- context [truthy ?s] => destruct (truthy s); eauto end.
Qed.

End SkipLookup.
